(** * Authentication session lifecycle of the e-commerce backend

    A shallow embedding of the cookie-based JWT session handlers

      - [generateAccessToken], [generateRefreshToken], [login],
        [refreshToken], [logout], [protectedRoute]
        (src/controllers/user.controller.ts, second document:
        the authenticate controller), and
      - [authenticateJWT] (src/middlewares/authenticate.middleware.ts),

    over explicit models of what they talk to: the Express request and
    response objects, the ioredis client ([sadd], [sismember], [srem] on
    the key "refreshTokens"), the mongoose [User] collection ([findOne]),
    and the two libraries jsonwebtoken and bcryptjs, which are taken as
    an interface ([Libs]).  Handlers are written in state-passing style
    over a [World] holding the Redis data, the user collection and the
    clock. *)

From Stdlib Require Import Ascii.
From Stdlib Require DecimalString DecimalZ.
From stdpp Require Import base strings gmap sets list.

Local Open Scope Z_scope.
Local Open Scope string_scope.

(** ** Values exchanged with the libraries *)

(** The decoded payload of a token: the [{ username }] object given to
    [jwt.sign], with the [iat] and [exp] claims the library adds
    (seconds since the epoch). *)
Record JwtPayload := mkPayload {
  username : string;
  iat : Z;
  exp : Z
}.

(** jsonwebtoken and bcryptjs.  [jwt_sign u secret expiresIn now] is
    [jwt.sign({ username: u }, secret, { expiresIn })] evaluated when the
    clock reads [now]; [jwt_verify token secret now] is what the callback
    of [jwt.verify(token, secret, cb)] receives: [None] when [err] is set,
    [Some user] otherwise.  [bcrypt_compare password hash] is
    [bcrypt.compare]. *)
Class Libs := {
  bcrypt_compare : string → string → bool;
  jwt_sign : string → string → Z → Z → string;
  jwt_verify : string → string → Z → option JwtPayload
}.

(** What the handlers may expect of jsonwebtoken (HS256, with an ideal
    MAC): a signed token is a non-empty string, the empty string never
    verifies, and a signed token verifies exactly under the key it was
    signed with and strictly before its expiry instant, yielding the
    signed payload. *)
Record JwtContract (L : Libs) : Prop := {
  sign_nonempty : ∀ u k e now, jwt_sign u k e now ≠ EmptyString;
  verify_empty : ∀ k now, jwt_verify EmptyString k now = None;
  verify_sign : ∀ u k e now k' now',
    jwt_verify (jwt_sign u k e now) k' now' =
      if decide (k = k' ∧ now' < now + e)
      then Some (mkPayload u now (now + e)) else None
}.

(** The result of a command sent to a store: the error-first callback
    [(err, reply)] or a promise that rejects or resolves. *)
Inductive reply (A : Type) : Type :=
  | Err (e : string)
  | Reply (a : A).
Arguments Err {A} e.
Arguments Reply {A} a.

(** ** Redis (ioredis client) *)

(** The server holds sets under keys; [fault] is [Some e] while the
    server cannot be reached, and every command then fails with [e]. *)
Record Redis := mkRedis {
  fault : option string;
  sets : gmap string (gset string)
}.

Definition smembers (r : Redis) (key : string) : gset string :=
  default ∅ (sets r !! key).

Definition sadd (r : Redis) (key member : string) : reply Z * Redis :=
  match fault r with
  | Some e => (Err e, r)
  | None =>
      (Reply (if decide (member ∈ smembers r key) then 0 else 1),
       mkRedis None (<[key := {[member]} ∪ smembers r key]> (sets r)))
  end.

Definition sismember (r : Redis) (key member : string) : reply Z :=
  match fault r with
  | Some e => Err e
  | None => Reply (if decide (member ∈ smembers r key) then 1 else 0)
  end.

Definition srem (r : Redis) (key member : string) : reply Z * Redis :=
  match fault r with
  | Some e => (Err e, r)
  | None =>
      (Reply (if decide (member ∈ smembers r key) then 1 else 0),
       mkRedis None (<[key := smembers r key ∖ {[member]}]> (sets r)))
  end.

(** ioredis sends a missing ([undefined]) argument as the empty string. *)
Definition toArg (v : option string) : string := default EmptyString v.

(** ** The user collection (mongoose) *)

Record IUser := mkUser {
  user_username : string;
  user_email : string;
  user_password : string;
  user_name : string;
  user_role : option string
}.

Record Mongo := mkMongo {
  mongo_fault : option string;
  users : list IUser
}.

(** [User.findOne({ username })]: the first matching document, [null]
    when there is none; the promise rejects while the database is down. *)
Definition findOne (m : Mongo) (name : string) : reply (option IUser) :=
  match mongo_fault m with
  | Some e => Err e
  | None => Reply (List.find (λ u, bool_decide (user_username u = name)) (users m))
  end.

(** ** Process environment and world *)

(** [process.env]; the two expirations are the time spans in seconds. *)
Record Env := mkEnv {
  JWT_ACCESS_TOKEN_SECRET : string;
  JWT_ACCESS_TOKEN_EXPIRATION : Z;
  JWT_REFRESH_TOKEN_SECRET : string;
  JWT_REFRESH_TOKEN_EXPIRATION : Z;
  NODE_ENV : string
}.

Record World := mkWorld {
  redis : Redis;
  mongo : Mongo;
  clock : Z
}.

Definition set_redis (w : World) (r : Redis) : World :=
  mkWorld r (mongo w) (clock w).

(** ** Express request and response *)

Record CookieOptions := mkOpts {
  httpOnly : bool;
  secure : bool;
  sameSite : string;
  maxAge : Z
}.

Inductive Header :=
  | SetCookie (name value : string) (options : CookieOptions)
  | ClearCookie (name : string).

Inductive Json :=
  | Message (message : string)
  | MessageUser (message : string) (user : IUser)
  | MessageError (message : string) (error : string)
  | MessageReqUser (message : string) (user : option JwtPayload).

Record Response := mkRes {
  statusCode : Z;
  headers : list Header;
  body : option Json
}.

(** A fresh response: status 200 until [res.status] is called. *)
Definition res0 : Response := mkRes 200 [] None.

Definition status (code : Z) (res : Response) : Response :=
  mkRes code (headers res) (body res).
Definition cookie (name value : string) (o : CookieOptions) (res : Response) : Response :=
  mkRes (statusCode res) (headers res ++ [SetCookie name value o]) (body res).
Definition clearCookie (name : string) (res : Response) : Response :=
  mkRes (statusCode res) (headers res ++ [ClearCookie name]) (body res).
Definition json (j : Json) (res : Response) : Response :=
  mkRes (statusCode res) (headers res) (Some j).

(** A value of [req.body] where a string is expected: a string, or a
    value of another type, given by its [typeof] ("undefined" when the
    field is missing). *)
Inductive JsValue :=
  | JsString (s : string)
  | JsOther (typeOf : string).

Record LoginBody := mkBody {
  body_username : string;
  body_password : JsValue
}.

Record Request := mkReq {
  cookies : gmap string string;
  req_body : LoginBody;
  req_user : option JwtPayload
}.

(** JavaScript truthiness of a cookie value: [undefined] and the empty
    string are falsy. *)
Definition truthy (v : option string) : bool :=
  match v with
  | None => false
  | Some s => negb (bool_decide (s = EmptyString))
  end.

(** ** The handlers *)

(** A middleware either answers itself or calls [next()] with the
    request it may have modified. *)
Inductive Middleware :=
  | Responded (res : Response)
  | Next (req : Request).

Section Handlers.
Context {L : Libs} (env : Env).

Definition isProduction : bool :=
  bool_decide (NODE_ENV env = "production").

(** Options of the [accessToken] cookie: maxAge 15 * 60 * 1000. *)
Definition accessCookieOptions : CookieOptions :=
  mkOpts true isProduction "strict" (15 * 60 * 1000).

(** Options of the [refreshToken] cookie: maxAge 30 days. *)
Definition refreshCookieOptions : CookieOptions :=
  mkOpts true isProduction "strict" (30 * 24 * 60 * 60 * 1000).

Definition generateAccessToken (w : World) (name : string) : string :=
  jwt_sign name (JWT_ACCESS_TOKEN_SECRET env)
    (JWT_ACCESS_TOKEN_EXPIRATION env) (clock w).

(** Signs the token and sends [SADD refreshTokens token]; the reply of
    the store is not looked at. *)
Definition generateRefreshToken (w : World) (name : string) : string * World :=
  let refreshToken :=
    jwt_sign name (JWT_REFRESH_TOKEN_SECRET env)
      (JWT_REFRESH_TOKEN_EXPIRATION env) (clock w) in
  let '(_, r) := sadd (redis w) "refreshTokens" refreshToken in
  (refreshToken, set_redis w r).

Definition invalidCredentials : Response :=
  json (Message "Invalid credentials") (status 401 res0).

(** [bcrypt.compare(password, hash)]: bcryptjs rejects the promise when
    the password is not a string. *)
Definition bcryptCompare (password : JsValue) (hash : string) : reply bool :=
  match password with
  | JsString s => Reply (bcrypt_compare s hash)
  | JsOther typeOf => Err ("Illegal arguments: " +:+ typeOf +:+ ", string")
  end.

Definition login (w : World) (req : Request) : World * Response :=
  let name := body_username (req_body req) in
  let password := body_password (req_body req) in
  match findOne (mongo w) name with
  | Err error =>
      (w, json (MessageError "Error logging in" error) (status 500 res0))
  | Reply None => (w, invalidCredentials)
  | Reply (Some user) =>
      match bcryptCompare password (user_password user) with
      | Err error =>
          (w, json (MessageError "Error logging in" error) (status 500 res0))
      | Reply true =>
          let accessToken := generateAccessToken w name in
          let '(refreshToken, w') := generateRefreshToken w name in
          (w',
           json (MessageUser "Logged in successfully" user)
             (cookie "refreshToken" refreshToken refreshCookieOptions
                (cookie "accessToken" accessToken accessCookieOptions res0)))
      | Reply false => (w, invalidCredentials)
      end
  end.

Definition refreshToken (w : World) (req : Request) : World * Response :=
  let token := cookies req !! "refreshToken" in
  if negb (truthy token) then
    (w, json (Message "Token is required") (status 401 res0))
  else
    match sismember (redis w) "refreshTokens" (toArg token) with
    | Err _ => (w, json (Message "Invalid refresh token") (status 403 res0))
    | Reply reply =>
        if negb (bool_decide (reply = 1)) then
          (w, json (Message "Invalid refresh token") (status 403 res0))
        else
          match jwt_verify (toArg token) (JWT_REFRESH_TOKEN_SECRET env) (clock w) with
          | None =>
              (w, json (Message "Token is invalid or expired") (status 403 res0))
          | Some user =>
              let newAccessToken := generateAccessToken w (username user) in
              (w,
               json (Message "Access token refreshed")
                 (cookie "accessToken" newAccessToken accessCookieOptions res0))
          end
    end.

Definition logout (w : World) (req : Request) : World * Response :=
  let token := cookies req !! "refreshToken" in
  match srem (redis w) "refreshTokens" (toArg token) with
  | (Err err, r) =>
      (set_redis w r, json (MessageError "Error logging out" err) (status 500 res0))
  | (Reply _, r) =>
      (set_redis w r,
       json (Message "Logged out successfully")
         (status 200 (clearCookie "refreshToken" (clearCookie "accessToken" res0))))
  end.

Definition protectedRoute (req : Request) : Response :=
  json (MessageReqUser "This is a protected route" (req_user req)) res0.

Definition authenticateJWT (w : World) (req : Request) : Middleware :=
  let token := cookies req !! "accessToken" in
  if truthy token then
    match jwt_verify (toArg token) (JWT_ACCESS_TOKEN_SECRET env) (clock w) with
    | None => Responded (json (Message "Forbidden") (status 403 res0))
    | Some user => Next (mkReq (cookies req) (req_body req) (Some user))
    end
  else Responded (json (Message "Unauthorized") (status 401 res0)).

(** [router.get("/protected", authenticateJWT, protectedRoute)]. *)
Definition getProtected (w : World) (req : Request) : Response :=
  match authenticateJWT w req with
  | Responded res => res
  | Next req' => protectedRoute req'
  end.

End Handlers.

(** The set of refresh tokens the store currently honours. *)
Definition ActiveRefreshSet (w : World) : gset string :=
  smembers (redis w) "refreshTokens".

(** The value a response sets for a cookie, if it sets one. *)
Definition cookieSet (name : string) (res : Response) : option string :=
  List.fold_left
    (λ acc h, match h with
              | SetCookie n v _ => if bool_decide (n = name) then Some v else acc
              | ClearCookie n => if bool_decide (n = name) then None else acc
              end)
    (headers res) None.

Definition cookieCleared (name : string) (res : Response) : bool :=
  existsb (λ h, match h with
                | ClearCookie n => bool_decide (n = name)
                | SetCookie _ _ _ => false
                end)
    (headers res).

(** ** A reference implementation of the libraries

    An executable stand-in for jsonwebtoken and bcryptjs, used to run the
    handlers on concrete requests.  A token is the sequence of its
    length-prefixed fields: user name, [iat], [exp] and, as signature,
    the key itself (an ideal MAC). *)

Module Reference.

(** [n] times the character 1, then a 0. *)
Fixpoint ones (n : nat) : string :=
  match n with
  | O => String "0"%char EmptyString
  | S n => String "1"%char (ones n)
  end.

Fixpoint read_ones (s : string) : option (nat * string) :=
  match s with
  | String c r =>
      if Ascii.eqb c "1"%char then
        match read_ones r with
        | Some (n, r') => Some (S n, r')
        | None => None
        end
      else if Ascii.eqb c "0"%char then Some (O, r)
      else None
  | EmptyString => None
  end.

Fixpoint take_n (n : nat) (s : string) : option (string * string) :=
  match n, s with
  | O, _ => Some (EmptyString, s)
  | S n, String c r =>
      match take_n n r with
      | Some (a, b) => Some (String c a, b)
      | None => None
      end
  | S _, EmptyString => None
  end.

Definition put (field rest : string) : string :=
  ones (String.length field) +:+ field +:+ rest.

Definition get (s : string) : option (string * string) :=
  match read_ones s with
  | Some (n, r) => take_n n r
  | None => None
  end.

Definition printZ (z : Z) : string := DecimalString.NilEmpty.string_of_int (Z.to_int z).

Definition parseZ (s : string) : option Z :=
  match DecimalString.NilEmpty.int_of_string s with
  | Some d => Some (Z.of_int d)
  | None => None
  end.

Definition sign (u k : string) (e now : Z) : string :=
  put u (put (printZ now) (put (printZ (now + e)) (put k EmptyString))).

Definition verify (token k' : string) (now' : Z) : option JwtPayload :=
  match get token with
  | Some (u, r1) =>
      match get r1 with
      | Some (si, r2) =>
          match get r2 with
          | Some (se, r3) =>
              match get r3 with
              | Some (k, r4) =>
                  match parseZ si, parseZ se with
                  | Some i, Some x =>
                      if decide (r4 = EmptyString ∧ k = k' ∧ now' < x)
                      then Some (mkPayload u i x) else None
                  | _, _ => None
                  end
              | None => None
              end
          | None => None
          end
      | None => None
      end
  | None => None
  end.

Definition hash (password : string) : string := "$2a$10$" +:+ password.

Definition compare (password hashed : string) : bool :=
  bool_decide (hashed = hash password).

Definition libs : Libs :=
  {| bcrypt_compare := compare; jwt_sign := sign; jwt_verify := verify |}.

End Reference.

(** ** Sample data *)

Definition env0 : Env :=
  mkEnv "access-secret" 900 "refresh-secret" 2592000 "development".

Definition alice : IUser :=
  mkUser "alice" "alice@example.com" (Reference.hash "correct horse")
    "Alice" (Some "customer").

Definition mongo0 : Mongo := mkMongo None [alice].

(** A world with an empty, reachable store. *)
Definition world0 : World := mkWorld (mkRedis None ∅) mongo0 1000.

(** The same world while Redis cannot be reached. *)
Definition world_down : World :=
  mkWorld (mkRedis (Some "ECONNREFUSED") ∅) mongo0 1000.

(** The refresh token the reference libraries mint for alice at 1000. *)
Definition aliceRefreshToken : string :=
  Reference.sign "alice" (JWT_REFRESH_TOKEN_SECRET env0)
    (JWT_REFRESH_TOKEN_EXPIRATION env0) 1000.

(** Redis holds alice's refresh token. *)
Definition world_member : World :=
  mkWorld (mkRedis None {[ "refreshTokens" := {[ aliceRefreshToken ]} ]})
    mongo0 1000.

(** Redis holds alice's refresh token but cannot be reached. *)
Definition world_member_down : World :=
  mkWorld
    (mkRedis (Some "ECONNREFUSED")
       {[ "refreshTokens" := {[ aliceRefreshToken ]} ]})
    mongo0 1000.

Definition loginReq (name password : string) : Request :=
  mkReq ∅ (mkBody name (JsString password)) None.

(** A login request whose body has no [password]. *)
Definition loginReqNoPassword (name : string) : Request :=
  mkReq ∅ (mkBody name (JsOther "undefined")) None.

Definition cookieReq (name value : string) : Request :=
  mkReq {[ name := value ]} (mkBody EmptyString (JsString EmptyString)) None.

(** ** Named outcomes

    The responses of the handlers, under the names of the error
    taxonomy. *)

Definition TokenMissing : Response :=
  json (Message "Token is required") (status 401 res0).
Definition TokenRevoked : Response :=
  json (Message "Invalid refresh token") (status 403 res0).
Definition TokenInvalid : Response :=
  json (Message "Token is invalid or expired") (status 403 res0).
Definition Unauthenticated : Response :=
  json (Message "Unauthorized") (status 401 res0).
Definition Forbidden : Response :=
  json (Message "Forbidden") (status 403 res0).
Definition StoreUnavailable (err : string) : Response :=
  json (MessageError "Error logging out" err) (status 500 res0).
Definition LoggedOut : Response :=
  mkRes 200 [ClearCookie "accessToken"; ClearCookie "refreshToken"]
    (Some (Message "Logged out successfully")).

(** The answer of a successful refresh that carries [accessToken]. *)
Definition Refreshed (o : CookieOptions) (accessToken : string) : Response :=
  mkRes 200 [SetCookie "accessToken" accessToken o]
    (Some (Message "Access token refreshed")).

(** The answer of a successful login. *)
Definition LoggedIn (oa or : CookieOptions) (user : IUser)
    (accessToken refreshToken : string) : Response :=
  mkRes 200
    [SetCookie "accessToken" accessToken oa;
     SetCookie "refreshToken" refreshToken or]
    (Some (MessageUser "Logged in successfully" user)).

(** The store answers commands. *)
Definition reachable (w : World) : Prop := fault (redis w) = None.

(** The membership check against the ActiveRefreshSet passes: the store
    answers, and says that [t] is a member. *)
Definition memberCheck (w : World) (t : string) : Prop :=
  reachable w ∧ t ∈ ActiveRefreshSet w.

(** A cookie value was supplied: the cookie is there and is not the
    empty string. *)
Definition supplied (v : option string) : Prop :=
  ∃ s, v = Some s ∧ s ≠ EmptyString.

#[global] Instance memberCheck_dec (w : World) (t : string) :
  Decision (memberCheck w t).
Proof. unfold memberCheck, reachable. apply _. Defined.

(** [login] accepts the request: the user collection answers with a
    document for the name, and the password is a string that matches its
    hash. *)
Definition accepted {L : Libs} (w : World) (req : Request) (user : IUser) : Prop :=
  findOne (mongo w) (body_username (req_body req)) = Reply (Some user) ∧
  ∃ password,
    body_password (req_body req) = JsString password ∧
    bcrypt_compare password (user_password user) = true.

(** The refresh token [login] mints for a request. *)
Definition mintedRefreshToken {L : Libs} (env : Env) (w : World) (req : Request) : string :=
  jwt_sign (body_username (req_body req)) (JWT_REFRESH_TOKEN_SECRET env)
    (JWT_REFRESH_TOKEN_EXPIRATION env) (clock w).

(** A world that differs from [w] at most in the Redis connection state
    and the clock, with the same stored data. *)
Definition later (w w' : World) : Prop :=
  sets (redis w') = sets (redis w).

(** ** Logout with a cookie of any kind

    cookie-parser turns a cookie written [j:...] into the JSON value it
    holds, and ioredis flattens an array argument into several members.
    A cookie value is given by what ioredis sends for it: one text (a
    string, or [String(value)] for a number, a boolean or an object), or
    the texts of the elements of an array. *)

Inductive CookieValue :=
  | CookieText (s : string)
  | CookieArray (elements : list string).

(** The members sent after the key; a missing cookie is sent as the
    empty string. *)
Definition sremArgs (token : option CookieValue) : list string :=
  match token with
  | None => [EmptyString]
  | Some (CookieText s) => [s]
  | Some (CookieArray elements) => elements
  end.

(** [SREM key member ...]: the server refuses the command without a
    member, and otherwise removes every member given and replies how
    many were there. *)
Definition sremMany (r : Redis) (key : string) (members : list string)
    : reply Z * Redis :=
  match fault r with
  | Some e => (Err e, r)
  | None =>
      match members with
      | [] => (Err "ERR wrong number of arguments for 'srem' command", r)
      | _ =>
          (Reply (Z.of_nat (size (smembers r key ∩ list_to_set members))),
           mkRedis None
             (<[key := smembers r key ∖ list_to_set members]> (sets r)))
      end
  end.

(** [logout] for the value [token] of [req.cookies.refreshToken]. *)
Definition logoutValue (w : World) (token : option CookieValue)
    : World * Response :=
  match sremMany (redis w) "refreshTokens" (sremArgs token) with
  | (Err err, r) =>
      (set_redis w r, json (MessageError "Error logging out" err) (status 500 res0))
  | (Reply _, r) =>
      (set_redis w r,
       json (Message "Logged out successfully")
         (status 200 (clearCookie "refreshToken" (clearCookie "accessToken" res0))))
  end.

(** ** Registration

    [register] and [registerMultipleUsers] of the authenticate
    controller, with the schema of src/models/database/user.model.ts.
    An [IUser] holds the fields every stored document has; the optional
    ones ([gender], [address], [phoneNumber]) only take part in
    validation.  Field values are strings; characters are code units
    below 256. *)

(** bcryptjs [hash]: [bcrypt_hash password rounds salt], where [salt] is
    the salt the library draws for this call. *)
Class Hasher := {
  bcrypt_hash : string → Z → string → string
}.

(** What the handlers may expect of bcryptjs: a password matches every
    hash made of it, and a hash has 60 characters. *)
Record HashContract (L : Libs) (H : Hasher) : Prop := {
  compare_hash : ∀ p r s, bcrypt_compare p (bcrypt_hash p r s) = true;
  hash_length : ∀ p r s, String.length (bcrypt_hash p r s) = 60%nat
}.

(** The white space of JavaScript's [\s] among the code units below 256. *)
Definition isSpace (c : ascii) : bool :=
  bool_decide (nat_of_ascii c ∈ [9; 10; 11; 12; 13; 32; 160]%nat).

(** The states of an automaton for [/^\S+@\S+\.\S+$/] on a text without
    white space: nothing read; in the local part; just after the at
    sign; in the domain; just after the dot; in the last part. *)
Inductive EmailState := Start | Local | AfterAt | Domain | AfterDot | Tail.

Definition emailStep (st : EmailState) (c : ascii) : EmailState :=
  match st with
  | Start => Local
  | Local => if Ascii.eqb c "@"%char then AfterAt else Local
  | AfterAt => Domain
  | Domain => if Ascii.eqb c "."%char then AfterDot else Domain
  | AfterDot => Tail
  | Tail => Tail
  end.

Definition emailRun (st : EmailState) (l : list ascii) : EmailState :=
  fold_left emailStep l st.

Definition isTail (st : EmailState) : bool :=
  match st with Tail => true | _ => false end.

(** [match: /^\S+@\S+\.\S+$/] of the schema. *)
Definition matchEmail (s : string) : bool :=
  forallb (λ c, negb (isSpace c)) (String.list_ascii_of_string s) &&
  isTail (emailRun Start (String.list_ascii_of_string s)).

(** The texts the expression denotes: three non-empty parts without
    white space, with an at sign after the first and a dot after the
    second. *)
Definition emailShape (l : list ascii) : Prop :=
  ∃ a b c : list ascii,
    l = (a ++ "@"%char :: b ++ "."%char :: c)%list ∧
    a ≠ [] ∧ b ≠ [] ∧ c ≠ [] ∧
    Forall (λ x, isSpace x = false) l.

(** A field of a JSON body for which mongoose tells a missing value from
    [null]: [role], whose default replaces a missing value only. *)
Inductive Field :=
  | Missing
  | Null
  | Text (s : string).

(** The argument of [new User({ ... })], after mongoose has dropped the
    paths that are not in the schema ([age]).  A path other than [role]
    is [None] when it is missing or [null], which the validators treat
    alike, and [Some s] when it is the string [s] or casts to it. *)
Record UserInput := mkInput {
  in_username : option string;
  in_password : option string;
  in_email : option string;
  in_gender : option string;
  in_name : option string;
  in_address : option string;
  in_role : Field
}.

(** [required] on a String path: there, and not the empty string. *)
Definition required (v : option string) : bool := truthy v.

Definition minlength (n : nat) (v : option string) : bool :=
  match v with
  | Some s => bool_decide (n ≤ String.length s)%nat
  | None => true
  end.

Definition enum (values : list string) (v : option string) : bool :=
  match v with
  | Some s => bool_decide (s ∈ values)
  | None => true
  end.

(** [enum] on [role]: a value that is there and not [null] is one of
    [values]. *)
Definition enumField (values : list string) (v : Field) : bool :=
  match v with
  | Text s => bool_decide (s ∈ values)
  | Missing | Null => true
  end.

(** [match] on a String path: the empty string is let through, as a
    missing value is. *)
Definition matches (v : option string) : bool :=
  match v with
  | Some s => bool_decide (s = EmptyString) || matchEmail s
  | None => true
  end.

(** The validators of [userSchema] on the paths [register] gives. *)
Definition validate (input : UserInput) : bool :=
  required (in_username input) && minlength 3 (in_username input) &&
  required (in_email input) && matches (in_email input) &&
  required (in_password input) && minlength 8 (in_password input) &&
  required (in_name input) &&
  enum ["male"; "female"; "other"] (in_gender input) &&
  enumField ["customer"; "admin"] (in_role input).

(** The stored document: a missing [role] becomes the default
    "customer", a [null] one is stored as [null]. *)
Definition document (input : UserInput) : IUser :=
  mkUser (toArg (in_username input)) (toArg (in_email input))
    (toArg (in_password input)) (toArg (in_name input))
    (match in_role input with
     | Missing => Some "customer"
     | Null => None
     | Text s => Some s
     end).

(** The unique indexes on [username] and [email]. *)
Definition duplicateKey (us : list IUser) (doc : IUser) : bool :=
  existsb (λ u, bool_decide (user_username u = user_username doc) ||
                bool_decide (user_email u = user_email doc)) us.

(** [newUser.save()]: validation, then the insert, which the database
    refuses while it is down, for a duplicate of a unique key, or when
    [refused] says that the [_id] given to the document cannot be used.
    The document goes to the end of the collection. *)
Definition save (m : Mongo) (refused : option string) (input : UserInput)
    : reply (IUser * Mongo) :=
  if validate input then
    match mongo_fault m with
    | Some e => Err e
    | None =>
        if duplicateKey (users m) (document input) then
          Err "E11000 duplicate key error"
        else
          match refused with
          | Some e => Err e
          | None =>
              Reply (document input,
                     mkMongo None (users m ++ [document input])%list)
          end
    end
  else Err "User validation failed".

(** [req.body] of [register]. *)
Record RegisterBody := mkRegister {
  reg_username : option string;
  reg_password : option string;
  reg_email : option string;
  reg_gender : option string;
  reg_age : option Z;
  reg_name : option string;
  reg_address : option string;
  reg_role : Field
}.

(** An entry of [UsersMockData] (mocks/user.mock.json). *)
Record MockUser := mkMock {
  mock_oid : string;
  mock_username : option string;
  mock_password : option string;
  mock_email : option string;
  mock_gender : option string;
  mock_name : option string;
  mock_address : option string;
  mock_role : Field
}.

(** The answer of [registerMultipleUsers]. *)
Inductive BulkJson :=
  | BulkUsers (message : string) (users : list IUser)
  | BulkMessage (message : string).

Section Registration.
Context {H : Hasher}.

(** [salt] is the salt drawn by [bcrypt.hash]; without a password the
    library throws, which the handler catches. *)
Definition register (w : World) (body : RegisterBody) (salt : string)
    : World * Response :=
  match reg_password body with
  | None =>
      (w, json (MessageError "Error registering user"
                  "Illegal arguments: undefined, number") (status 500 res0))
  | Some password =>
      let hashedPassword := bcrypt_hash password 10 salt in
      let newUser :=
        mkInput (reg_username body) (Some hashedPassword) (reg_email body)
          (reg_gender body) (reg_name body) (reg_address body) (reg_role body) in
      match save (mongo w) None newUser with
      | Err error =>
          (w, json (MessageError "Error registering user" error) (status 500 res0))
      | Reply (user, m) =>
          (mkWorld (redis w) m (clock w),
           json (MessageUser "User registered successfully" user) (status 201 res0))
      end
  end.

(** [UsersMockData] is not part of the sources and is a parameter, as
    are the salts of the successive calls of [bcrypt.hash] and what the
    collection makes of an [_id] taken from the data. *)
Variable UsersMockData : list MockUser.
Variable salts : nat → string.
Variable refusesId : list IUser → string → option string.

(** The body of the [for] loop, from the state of the collection, the
    number of hashes made so far and the users registered so far. *)
Fixpoint registerLoop (mocks : list MockUser) (m : Mongo) (drawn : nat)
    (registeredUsers : list IUser) : Mongo * list IUser :=
  match mocks with
  | [] => (m, registeredUsers)
  | user :: rest =>
      if negb (truthy (mock_username user)) || negb (truthy (mock_password user)) ||
         negb (truthy (mock_email user)) || negb (truthy (mock_gender user)) ||
         negb (truthy (mock_name user))
      then registerLoop rest m drawn registeredUsers
      else
        let refused :=
          if bool_decide (mock_oid user = EmptyString) then None
          else refusesId (users m) (mock_oid user) in
        let hashedPassword :=
          bcrypt_hash (toArg (mock_password user)) 10 (salts drawn) in
        let newUser :=
          mkInput (mock_username user) (Some hashedPassword) (mock_email user)
            (mock_gender user) (mock_name user) (mock_address user)
            (mock_role user) in
        match save m refused newUser with
        | Reply (saved, m') =>
            registerLoop rest m' (S drawn) (registeredUsers ++ [saved])%list
        | Err _ => registerLoop rest m (S drawn) registeredUsers
        end
  end.

Definition registerMultipleUsers (w : World) : World * (Z * BulkJson) :=
  let '(m, registeredUsers) := registerLoop UsersMockData (mongo w) 0 [] in
  (mkWorld (redis w) m (clock w),
   if bool_decide (0 < length registeredUsers)%nat then
     (201, BulkUsers "Users registered successfully" registeredUsers)
   else (400, BulkMessage "No users were registered due to errors")).

End Registration.

(** The argument of [new User({ ... })] that the loop makes of an entry
    when [drawn] hashes have been made before. *)
Definition entryInput {H : Hasher} (salts : nat → string)
    (user : MockUser) (drawn : nat) : UserInput :=
  mkInput (mock_username user)
    (Some (bcrypt_hash (toArg (mock_password user)) 10 (salts drawn)))
    (mock_email user) (mock_gender user) (mock_name user) (mock_address user)
    (mock_role user).

(** The documents stored for the entries [kept], each with the number of
    hashes made before it. *)
Definition documentsOf {H : Hasher} (salts : nat → string)
    (kept : list (MockUser * nat)) : list IUser :=
  (λ k, document (entryInput salts k.1 k.2)) <$> kept.

(** An entry that gets past the check of the required fields. *)
Definition complete (mock : MockUser) : Prop :=
  supplied (mock_username mock) ∧ supplied (mock_password mock) ∧
  supplied (mock_email mock) ∧ supplied (mock_gender mock) ∧
  supplied (mock_name mock).

(** The stored document [u] was made from an entry of [mocks] that has
    the checked fields, with the password hashed under a drawn salt. *)
Definition madeFrom {H : Hasher} (salts : nat → string)
    (mocks : list MockUser) (u : IUser) : Prop :=
  ∃ mock i, mock ∈ mocks ∧ complete mock ∧
    user_username u = toArg (mock_username mock) ∧
    user_email u = toArg (mock_email mock) ∧
    user_name u = toArg (mock_name mock) ∧
    user_password u = bcrypt_hash (toArg (mock_password mock)) 10 (salts i).

(** What the schema says of a stored document; its role may be [null]. *)
Definition validDocument (u : IUser) : Prop :=
  (3 ≤ String.length (user_username u))%nat ∧
  matchEmail (user_email u) = true ∧
  (8 ≤ String.length (user_password u))%nat ∧
  user_name u ≠ EmptyString ∧
  ∀ role, user_role u = Some role → role ∈ ["customer"; "admin"].

(** A collection as the schema and its unique indexes want it. *)
Definition wellFormed (us : list IUser) : Prop :=
  NoDup (user_username <$> us) ∧ NoDup (user_email <$> us) ∧
  Forall validDocument us.

(** A second stand-in for bcryptjs, with hashes of 60 characters: the
    prefix and the password, cut or filled up to 53 characters. *)
Module Padded.

Fixpoint pad (n : nat) (s : string) : string :=
  match n with
  | O => EmptyString
  | S n =>
      match s with
      | String c r => String c (pad n r)
      | EmptyString => String "."%char (pad n EmptyString)
      end
  end.

Definition hash (password : string) (rounds : Z) (salt : string) : string :=
  "$2a$10$" +:+ pad 53 password.

Definition compare (password hashed : string) : bool :=
  bool_decide (hashed = hash password 10 EmptyString).

Definition libs : Libs :=
  {| bcrypt_compare := compare;
     jwt_sign := Reference.sign; jwt_verify := Reference.verify |}.

Definition hasher : Hasher := {| bcrypt_hash := hash |}.

End Padded.

Definition bobBody : RegisterBody :=
  mkRegister (Some "bob") (Some "pw") (Some "bob@example.com") None None
    (Some "Bob") None Missing.

(** * Properties *)

(** ** The store commands *)

Lemma smembers_insert (r : Redis) (key : string) (s : gset string) :
  smembers (mkRedis None (<[key := s]> (sets r))) key = s.
Proof. unfold smembers; simpl. by rewrite lookup_insert_eq. Qed.

Lemma sismember_reply (r : Redis) (key member : string) :
  sismember r key member = Reply 1 ↔ fault r = None ∧ member ∈ smembers r key.
Proof.
  unfold sismember. destruct (fault r) as [e|].
  - split; [discriminate | intros [? _]; discriminate].
  - destruct (decide (member ∈ smembers r key)) as [Hin|Hout].
    + split; [by intros _ | done].
    + split; [discriminate | by intros [_ ?]].
Qed.

Lemma sadd_down (r : Redis) (key member e : string) :
  fault r = Some e → sadd r key member = (Err e, r).
Proof. intros H. unfold sadd. by rewrite H. Qed.

Lemma sadd_up (r : Redis) (key member : string) :
  fault r = None →
  ∃ n r', sadd r key member = (Reply n, r') ∧ fault r' = None ∧
          smembers r' key = {[member]} ∪ smembers r key.
Proof.
  intros H. unfold sadd. rewrite H. eexists _, _. split; [done|].
  split; [done|]. apply smembers_insert.
Qed.

Lemma srem_down (r : Redis) (key member e : string) :
  fault r = Some e → srem r key member = (Err e, r).
Proof. intros H. unfold srem. by rewrite H. Qed.

Lemma srem_up (r : Redis) (key member : string) :
  fault r = None →
  ∃ n r', srem r key member = (Reply n, r') ∧ fault r' = None ∧
          smembers r' key = smembers r key ∖ {[member]}.
Proof.
  intros H. unfold srem. rewrite H. eexists _, _. split; [done|].
  split; [done|]. apply smembers_insert.
Qed.

(** ** The reference libraries meet the contract *)

Lemma read_ones_ones (n : nat) (rest : string) :
  Reference.read_ones (Reference.ones n +:+ rest) = Some (n, rest).
Proof. induction n as [|n IH]; simpl; [done|]. by rewrite IH. Qed.

Lemma take_n_length (f rest : string) :
  Reference.take_n (String.length f) (f +:+ rest) = Some (f, rest).
Proof. induction f as [|c f IH]; simpl; [done|]. by rewrite IH. Qed.

Lemma get_put (f rest : string) :
  Reference.get (Reference.put f rest) = Some (f, rest).
Proof.
  unfold Reference.get, Reference.put.
  rewrite read_ones_ones. apply take_n_length.
Qed.

Lemma parseZ_printZ (z : Z) : Reference.parseZ (Reference.printZ z) = Some z.
Proof.
  unfold Reference.parseZ, Reference.printZ.
  rewrite DecimalString.NilEmpty.isi. by rewrite DecimalZ.of_to.
Qed.

Lemma reference_contract : JwtContract Reference.libs.
Proof.
  split; simpl.
  - intros u k e now. unfold Reference.sign, Reference.put.
    by destruct (String.length u).
  - done.
  - intros u k e now k' now'. unfold Reference.verify, Reference.sign.
    rewrite !get_put, !parseZ_printZ.
    destruct (decide (k = k' ∧ now' < now + e)) as [Hy|Hn].
    + rewrite decide_True; [done | tauto].
    + rewrite decide_False; [done | tauto].
Qed.

(** ** Cookie values *)

Lemma truthy_supplied (v : option string) : truthy v = true ↔ supplied v.
Proof.
  unfold supplied. destruct v as [s|]; simpl.
  - destruct (decide (s = EmptyString)) as [->|Hne].
    + split; [done | by intros (s & [= <-] & ?)].
    + rewrite bool_decide_eq_false_2 by done. split; [eauto | done].
  - split; [done | by intros (s & ? & _)].
Qed.

Lemma truthy_false (v : option string) : truthy v = false ↔ ¬ supplied v.
Proof.
  rewrite <- truthy_supplied. by destruct (truthy v).
Qed.

(** ** The handlers, case by case *)

Section Properties.
Context {L : Libs} (env : Env).

(** What [refreshToken] answers, in terms of the three checks, made in
    this order.  The world is returned as it was. *)
Lemma refreshToken_cases (w : World) (req : Request) :
  let token := cookies req !! "refreshToken" in
  refreshToken env w req =
    (w,
     if truthy token then
       if decide (memberCheck w (toArg token)) then
         match jwt_verify (toArg token) (JWT_REFRESH_TOKEN_SECRET env) (clock w) with
         | Some user =>
             Refreshed (accessCookieOptions env)
               (generateAccessToken env w (username user))
         | None => TokenInvalid
         end
       else TokenRevoked
     else TokenMissing).
Proof.
  intros token. unfold refreshToken. fold token.
  destruct (truthy token); simpl; [|done].
  destruct (decide (memberCheck w (toArg token))) as [Hm|Hm].
  - assert (sismember (redis w) "refreshTokens" (toArg token) = Reply 1) as ->
      by (apply sismember_reply; exact Hm).
    simpl. by destruct (jwt_verify _ _ _).
  - destruct (sismember (redis w) "refreshTokens" (toArg token)) as [e|n] eqn:Hs;
      [done|].
    destruct (decide (n = 1)) as [->|Hn].
    + exfalso. by apply Hm, sismember_reply.
    + by rewrite bool_decide_eq_false_2.
Qed.

Lemma Refreshed_distinct (o : CookieOptions) (a : string) :
  Refreshed o a ≠ TokenMissing ∧ Refreshed o a ≠ TokenRevoked ∧
  Refreshed o a ≠ TokenInvalid.
Proof. by repeat split. Qed.

(** C1.  A refresh succeeds, answering 200 with a new access token,
    exactly when the presented refresh token is non-empty, passes the
    membership check against the ActiveRefreshSet, and verifies under the
    refresh secret at the current time.  Otherwise the answer is
    TokenMissing (401) when no token was supplied, TokenRevoked (403) when
    a supplied token fails the membership check, whatever its signature,
    and TokenInvalid (403) when a member fails verification: membership
    is checked first.  The membership check passes when the store answers
    and the token is in the set; while the store answers, that is
    membership in the ActiveRefreshSet. *)
Theorem refresh_succeeds_iff_three_checks (w : World) (req : Request) :
  let token := cookies req !! "refreshToken" in
  let verified :=
    jwt_verify (toArg token) (JWT_REFRESH_TOKEN_SECRET env) (clock w) in
  let res := (refreshToken env w req).2 in
  ((∃ a, res = Refreshed (accessCookieOptions env) a) ↔
     supplied token ∧ memberCheck w (toArg token) ∧ is_Some verified) ∧
  (reachable w →
     ((∃ a, res = Refreshed (accessCookieOptions env) a) ↔
        supplied token ∧ toArg token ∈ ActiveRefreshSet w ∧ is_Some verified)) ∧
  (¬ supplied token → res = TokenMissing) ∧
  (supplied token → ¬ memberCheck w (toArg token) → res = TokenRevoked) ∧
  (supplied token → memberCheck w (toArg token) → verified = None →
     res = TokenInvalid) ∧
  statusCode TokenMissing = 401 ∧ statusCode TokenRevoked = 403 ∧
  statusCode TokenInvalid = 403.
Proof.
  intros token verified res. subst res. rewrite refreshToken_cases. simpl.
  fold token verified.
  match goal with |- ?A ∧ _ => assert A as Hiff end.
  { split.
    + intros [a Ha]. destruct (truthy token) eqn:Ht.
      * apply truthy_supplied in Ht.
        destruct (decide (memberCheck w (toArg token))) as [Hm|Hm].
        -- destruct verified as [p|]; [by eauto|].
           symmetry in Ha. by apply Refreshed_distinct in Ha.
        -- symmetry in Ha. by apply Refreshed_distinct in Ha.
      * symmetry in Ha. by apply Refreshed_distinct in Ha.
    + intros (Hs & Hm & [p Hp]). apply truthy_supplied in Hs.
      rewrite Hs, decide_True, Hp by done. eauto. }
  split; [exact Hiff|].
  split; [|split; [|split; [|split]]]; [| | | |done].
  - intros Hup. rewrite Hiff. unfold memberCheck. tauto.
  - intros Hs. apply truthy_false in Hs. by rewrite Hs.
  - intros Hs Hm. apply truthy_supplied in Hs.
    by rewrite Hs, decide_False.
  - intros Hs Hm Hv. apply truthy_supplied in Hs.
    by rewrite Hs, decide_True, Hv.
Qed.

(** C3.  No call of [refreshToken] changes the world, so the
    ActiveRefreshSet is the same afterwards and a member stays a member;
    the only header a refresh ever sends sets the [accessToken] cookie, so
    the [refreshToken] cookie is neither replaced nor cleared; and a
    successful refresh sends exactly one new access token, minted for the
    user name of the presented token. *)
Theorem refresh_changes_nothing_but_access_cookie (w : World) (req : Request) :
  let token := cookies req !! "refreshToken" in
  let res := (refreshToken env w req).2 in
  (refreshToken env w req).1 = w ∧
  ActiveRefreshSet (refreshToken env w req).1 = ActiveRefreshSet w ∧
  (toArg token ∈ ActiveRefreshSet w →
     toArg token ∈ ActiveRefreshSet (refreshToken env w req).1) ∧
  (∀ h, h ∈ headers res →
     ∃ a, h = SetCookie "accessToken" a (accessCookieOptions env)) ∧
  cookieSet "refreshToken" res = None ∧
  cookieCleared "refreshToken" res = false ∧
  (∀ user, supplied token → memberCheck w (toArg token) →
     jwt_verify (toArg token) (JWT_REFRESH_TOKEN_SECRET env) (clock w) = Some user →
     res = Refreshed (accessCookieOptions env)
             (generateAccessToken env w (username user))).
Proof.
  intros token res. subst res. rewrite refreshToken_cases. simpl. fold token.
  split; [done|]. split; [done|]. split; [done|].
  destruct (truthy token) eqn:Ht.
  - destruct (decide (memberCheck w (toArg token))) as [Hm|Hm].
    + destruct (jwt_verify _ _ _) as [p|] eqn:Hv.
      * repeat split; try done.
        -- intros h Hh. apply list_elem_of_singleton in Hh. eauto.
        -- by intros user _ _ [= ->].
      * repeat split; try done. intros h Hh. by apply elem_of_nil in Hh.
    + repeat split; try done. intros h Hh. by apply elem_of_nil in Hh.
  - apply truthy_false in Ht.
    repeat split; try done. intros h Hh. by apply elem_of_nil in Hh.
Qed.

(** C10.  [refreshToken] never reads the user collection: replacing it
    by any other one, for instance one without the user, changes neither
    the answer nor what happens to the rest of the world; and the access
    token of a successful refresh is signed for the user name found in
    the payload of the refresh token. *)
Theorem refresh_ignores_credential_store (w : World) (m' : Mongo) (req : Request) :
  let token := cookies req !! "refreshToken" in
  let w' := mkWorld (redis w) m' (clock w) in
  (refreshToken env w' req).2 = (refreshToken env w req).2 ∧
  (refreshToken env w' req).1 = w' ∧
  (∀ user, supplied token → memberCheck w (toArg token) →
     jwt_verify (toArg token) (JWT_REFRESH_TOKEN_SECRET env) (clock w) = Some user →
     (refreshToken env w' req).2 =
       Refreshed (accessCookieOptions env)
         (jwt_sign (username user) (JWT_ACCESS_TOKEN_SECRET env)
            (JWT_ACCESS_TOKEN_EXPIRATION env) (clock w))).
Proof.
  intros token w'. rewrite !refreshToken_cases. simpl. fold token.
  split; [done|]. split; [done|].
  intros user Hs Hm Hv. apply truthy_supplied in Hs.
  change (memberCheck w' (toArg token)) with (memberCheck w (toArg token)).
  by rewrite Hs, decide_True, Hv.
Qed.

(** *** Logout *)

Lemma set_redis_same (w : World) : set_redis w (redis w) = w.
Proof. by destruct w. Qed.

Lemma logout_down (w : World) (req : Request) (e : string) :
  fault (redis w) = Some e → logout w req = (w, StoreUnavailable e).
Proof.
  intros Hf. unfold logout. rewrite (srem_down _ _ _ e) by done.
  by rewrite set_redis_same.
Qed.

Lemma logout_up (w : World) (req : Request) :
  reachable w →
  ∃ w', logout w req = (w', LoggedOut) ∧ reachable w' ∧
        mongo w' = mongo w ∧ clock w' = clock w ∧
        ActiveRefreshSet w' =
          ActiveRefreshSet w ∖ {[toArg (cookies req !! "refreshToken")]}.
Proof.
  intros Hf. unfold logout.
  destruct (srem_up (redis w) "refreshTokens"
              (toArg (cookies req !! "refreshToken")) Hf)
    as (n & r' & -> & Hf' & Hs).
  by eexists.
Qed.

(** C5.  While the store answers, logging out twice in succession with
    the same cookie gives the same answer both times, 200 with both
    cookies cleared; the second call leaves the ActiveRefreshSet as the
    first one left it, without the token; and logging out with a token
    that is not in the set is answered in the same way and leaves the set
    as it was. *)
Theorem logout_twice_same_effect (w : World) (req : Request) :
  reachable w →
  let t := toArg (cookies req !! "refreshToken") in
  let first := logout w req in
  let second := logout first.1 req in
  first.2 = LoggedOut ∧ second.2 = LoggedOut ∧
  statusCode LoggedOut = 200 ∧
  cookieCleared "accessToken" LoggedOut = true ∧
  cookieCleared "refreshToken" LoggedOut = true ∧
  (t ∉ ActiveRefreshSet (first.1)) ∧
  ActiveRefreshSet (second.1) = ActiveRefreshSet (first.1) ∧
  (t ∉ ActiveRefreshSet w → ActiveRefreshSet (first.1) = ActiveRefreshSet w).
Proof.
  intros Hf t first second. subst first second.
  destruct (logout_up w req Hf) as (w1 & -> & Hf1 & _ & _ & Hs1). simpl.
  destruct (logout_up w1 req Hf1) as (w2 & -> & _ & _ & _ & Hs2). simpl.
  fold t in Hs1, Hs2. rewrite Hs2, Hs1.
  repeat split; try done.
  - rewrite elem_of_difference, elem_of_singleton. tauto.
  - apply set_eq. intros x. rewrite !elem_of_difference. tauto.
  - intros Hout. apply set_eq. intros x.
    rewrite elem_of_difference, elem_of_singleton.
    split; [tauto|]. intros Hx. split; [done|]. by intros ->.
Qed.

(** *** An unreachable store *)

Lemma refreshToken_down (w : World) (req : Request) :
  supplied (cookies req !! "refreshToken") → ¬ reachable w →
  refreshToken env w req = (w, TokenRevoked).
Proof.
  intros Hs Hf. rewrite refreshToken_cases. apply truthy_supplied in Hs.
  rewrite Hs, decide_False; [done | by intros [? _]].
Qed.

(** *** Login *)

Lemma login_accepted (w : World) (req : Request) (user : IUser) :
  accepted w req user →
  login env w req =
    (set_redis w (sadd (redis w) "refreshTokens" (mintedRefreshToken env w req)).2,
     LoggedIn (accessCookieOptions env) (refreshCookieOptions env) user
       (generateAccessToken env w (body_username (req_body req)))
       (mintedRefreshToken env w req)).
Proof.
  intros [Hfind (password & Hp & Hpw)].
  unfold login, bcryptCompare, generateRefreshToken, mintedRefreshToken.
  rewrite Hfind, Hp, Hpw. by destruct (sadd _ _ _).
Qed.

Lemma login_rejected (w : World) (req : Request) :
  (findOne (mongo w) (body_username (req_body req)) = Reply None ∨
   ∃ user password,
     findOne (mongo w) (body_username (req_body req)) = Reply (Some user) ∧
     body_password (req_body req) = JsString password ∧
     bcrypt_compare password (user_password user) = false) →
  login env w req = (w, invalidCredentials).
Proof.
  unfold login, bcryptCompare.
  intros [-> | (user & password & -> & -> & ->)]; done.
Qed.

(** With a password that is not a string, the answer tells whether the
    name is known: bcryptjs is only called, and only then rejects, when a
    document was found. *)
Lemma login_not_a_string (w : World) (req : Request) (typeOf : string) :
  body_password (req_body req) = JsOther typeOf →
  login env w req =
    (w,
     match findOne (mongo w) (body_username (req_body req)) with
     | Err error => mkRes 500 [] (Some (MessageError "Error logging in" error))
     | Reply None => invalidCredentials
     | Reply (Some _) =>
         mkRes 500 []
           (Some (MessageError "Error logging in"
                    ("Illegal arguments: " +:+ typeOf +:+ ", string")))
     end).
Proof.
  intros Hp. unfold login, bcryptCompare. rewrite Hp.
  by destruct (findOne _ _) as [e | [user|]].
Qed.

(** What a reachable store holds after an accepted login. *)
Lemma login_registers_when_reachable (w : World) (req : Request) (user : IUser) :
  accepted w req user → reachable w →
  ActiveRefreshSet (login env w req).1 =
    {[mintedRefreshToken env w req]} ∪ ActiveRefreshSet w.
Proof.
  intros Ha Hf. rewrite (login_accepted _ _ _ Ha). simpl.
  destruct (sadd_up (redis w) "refreshTokens" (mintedRefreshToken env w req) Hf)
    as (n & r' & -> & _ & Hs).
  exact Hs.
Qed.

(** What an unreachable store holds after an accepted login. *)
Lemma login_store_down (w : World) (req : Request) (user : IUser) (e : string) :
  accepted w req user → fault (redis w) = Some e →
  (login env w req).1 = w.
Proof.
  intros Ha Hf. rewrite (login_accepted _ _ _ Ha). simpl.
  rewrite (sadd_down _ _ _ e) by done. apply set_redis_same.
Qed.

(** For passwords that are strings: a login for a name the user
    collection does not know, and a login for a known name with a password
    that does not match, get the same answer, status 401 with the message
    "Invalid credentials", and both leave the world as it was. *)
Lemma login_failures_same_for_string_passwords
    (w1 w2 : World) (req1 req2 : Request) (user : IUser) (password : string) :
  findOne (mongo w1) (body_username (req_body req1)) = Reply None →
  findOne (mongo w2) (body_username (req_body req2)) = Reply (Some user) →
  body_password (req_body req2) = JsString password →
  bcrypt_compare password (user_password user) = false →
  (login env w1 req1).2 = (login env w2 req2).2 ∧
  (login env w1 req1).2 = invalidCredentials ∧
  statusCode invalidCredentials = 401 ∧
  body invalidCredentials = Some (Message "Invalid credentials") ∧
  headers invalidCredentials = [] ∧
  (login env w1 req1).1 = w1 ∧ (login env w2 req2).1 = w2.
Proof.
  intros H1 H2 Hp Hpw.
  rewrite (login_rejected w1 req1) by (by left).
  rewrite (login_rejected w2 req2) by (right; eauto).
  done.
Qed.

(** C9, as amended.  When the store cannot be reached, an accepted login
    still answers 200 with both cookies, the same answer as for any other
    state of the store, and the ActiveRefreshSet is left as it was.  If
    the minted refresh token was not already a member, it is not one
    afterwards, and as long as the stored set stays the same every
    refresh that presents it is answered TokenRevoked (403). *)
Theorem login_succeeds_though_add_fails
    (w : World) (req : Request) (user : IUser) (e : string) :
  JwtContract L → accepted w req user → fault (redis w) = Some e →
  let t := mintedRefreshToken env w req in
  let after := login env w req in
  after.2 = LoggedIn (accessCookieOptions env) (refreshCookieOptions env) user
              (generateAccessToken env w (body_username (req_body req))) t ∧
  (∀ r, (login env (set_redis w r) req).2 = after.2) ∧
  ActiveRefreshSet (after.1) = ActiveRefreshSet w ∧
  (t ∉ ActiveRefreshSet w →
     (t ∉ ActiveRefreshSet (after.1)) ∧
     ∀ w' req', later (after.1) w' → cookies req' !! "refreshToken" = Some t →
       refreshToken env w' req' = (w', TokenRevoked)).
Proof.
  intros HL Ha Hf t after. subst after.
  rewrite (login_store_down _ _ _ _ Ha Hf).
  split; [by rewrite (login_accepted _ _ _ Ha)|].
  split.
  { intros r. rewrite (login_accepted _ _ _ Ha).
    by rewrite (login_accepted (set_redis w r) req user). }
  split; [done|].
  intros Hout. split; [done|].
  intros w' req' Hlater Hc. rewrite refreshToken_cases, Hc. simpl.
  rewrite bool_decide_eq_false_2 by apply (sign_nonempty L HL). simpl.
  rewrite decide_False; [done|].
  intros [_ Hin]. apply Hout.
  unfold ActiveRefreshSet, smembers in *. by rewrite <- Hlater.
Qed.

(** *** Protected resources *)

Lemma authenticateJWT_cases (w : World) (req : Request) :
  let token := cookies req !! "accessToken" in
  authenticateJWT env w req =
    if truthy token then
      match jwt_verify (toArg token) (JWT_ACCESS_TOKEN_SECRET env) (clock w) with
      | Some user => Next (mkReq (cookies req) (req_body req) (Some user))
      | None => Responded Forbidden
      end
    else Responded Unauthenticated.
Proof.
  intros token. unfold authenticateJWT. fold token.
  destruct (truthy token); [|done]. by destruct (jwt_verify _ _ _).
Qed.

(** C8.  [authenticateJWT] depends on the world only through the clock:
    it gives the same result for every state of Redis and of the user
    collection, and for every refresh secret.  Without an access token it
    answers Unauthenticated (401); with one that does not verify under
    the access secret at the current time it answers Forbidden (403);
    with one that verifies it calls the next handler on the request with
    the decoded payload attached as [req.user], which is what
    [protectedRoute] then sees. *)
Theorem authenticateJWT_access_secret_only (w : World) (req : Request) :
  let token := cookies req !! "accessToken" in
  let verified :=
    jwt_verify (toArg token) (JWT_ACCESS_TOKEN_SECRET env) (clock w) in
  (∀ r m, authenticateJWT env (mkWorld r m (clock w)) req = authenticateJWT env w req) ∧
  (∀ secret expiration mode,
     authenticateJWT
       (mkEnv (JWT_ACCESS_TOKEN_SECRET env) (JWT_ACCESS_TOKEN_EXPIRATION env)
          secret expiration mode) w req = authenticateJWT env w req) ∧
  (¬ supplied token → authenticateJWT env w req = Responded Unauthenticated) ∧
  (supplied token → verified = None →
     authenticateJWT env w req = Responded Forbidden) ∧
  (∀ user, supplied token → verified = Some user →
     authenticateJWT env w req =
       Next (mkReq (cookies req) (req_body req) (Some user)) ∧
     getProtected env w req =
       protectedRoute (mkReq (cookies req) (req_body req) (Some user)) ∧
     body (getProtected env w req) =
       Some (MessageReqUser "This is a protected route" (Some user))) ∧
  statusCode Unauthenticated = 401 ∧ statusCode Forbidden = 403.
Proof.
  intros token verified. unfold getProtected.
  rewrite authenticateJWT_cases. fold token verified.
  split; [done|]. split; [done|].
  split; [|split; [|split]]; [| | |done].
  - intros Hs. apply truthy_false in Hs. by rewrite Hs.
  - intros Hs Hv. apply truthy_supplied in Hs. by rewrite Hs, Hv.
  - intros user Hs Hv. apply truthy_supplied in Hs. by rewrite Hs, Hv.
Qed.

(** C6.  With a jsonwebtoken that meets its contract and two distinct
    secrets configured, the access token issued for [id] verifies under
    the access secret, at any time before its expiry, to a payload whose
    user name is [id], and [authenticateJWT] attaches that payload; under
    the refresh secret the same token does not verify at any time, and
    [refreshToken] answers TokenInvalid to it even when it is a member of
    the ActiveRefreshSet. *)
Theorem access_token_round_trip (w : World) (id : string) (now : Z) :
  JwtContract L →
  JWT_ACCESS_TOKEN_SECRET env ≠ JWT_REFRESH_TOKEN_SECRET env →
  now < clock w + JWT_ACCESS_TOKEN_EXPIRATION env →
  let t := generateAccessToken env w id in
  let payload :=
    mkPayload id (clock w) (clock w + JWT_ACCESS_TOKEN_EXPIRATION env) in
  jwt_verify t (JWT_ACCESS_TOKEN_SECRET env) now = Some payload ∧
  username payload = id ∧
  (∀ r m req, cookies req !! "accessToken" = Some t →
     authenticateJWT env (mkWorld r m now) req =
       Next (mkReq (cookies req) (req_body req) (Some payload))) ∧
  (∀ now', jwt_verify t (JWT_REFRESH_TOKEN_SECRET env) now' = None) ∧
  (∀ w' req, cookies req !! "refreshToken" = Some t → memberCheck w' t →
     refreshToken env w' req = (w', TokenInvalid)).
Proof.
  intros HL Hne Hlt t payload. subst t. unfold generateAccessToken.
  assert (∀ now', jwt_verify
            (jwt_sign id (JWT_ACCESS_TOKEN_SECRET env)
               (JWT_ACCESS_TOKEN_EXPIRATION env) (clock w))
            (JWT_REFRESH_TOKEN_SECRET env) now' = None) as Hrefresh.
  { intros now'. rewrite (verify_sign L HL).
    rewrite decide_False; [done | by intros [? _]]. }
  assert (jwt_verify
            (jwt_sign id (JWT_ACCESS_TOKEN_SECRET env)
               (JWT_ACCESS_TOKEN_EXPIRATION env) (clock w))
            (JWT_ACCESS_TOKEN_SECRET env) now = Some payload) as Haccess.
  { rewrite (verify_sign L HL). by rewrite decide_True. }
  split; [done|]. split; [done|]. split; [|split; [done|]].
  - intros r m req Hc. rewrite authenticateJWT_cases, Hc. simpl.
    rewrite bool_decide_eq_false_2 by apply (sign_nonempty L HL). simpl.
    by rewrite Haccess.
  - intros w' req Hc Hm. rewrite refreshToken_cases, Hc. simpl.
    rewrite bool_decide_eq_false_2 by apply (sign_nonempty L HL). simpl.
    by rewrite decide_True, Hrefresh.
Qed.

End Properties.

(** ** Sessions: how the handlers compose *)

Section Sessions.
Context {L : Libs} (env : Env).

Lemma ActiveRefreshSet_later (w w' : World) :
  later w w' → ActiveRefreshSet w' = ActiveRefreshSet w.
Proof. unfold later, ActiveRefreshSet, smembers. by intros ->. Qed.

Lemma supplied_signed (HL : JwtContract L) (u k : string) (e now : Z) :
  truthy (Some (jwt_sign u k e now)) = true.
Proof.
  simpl. by rewrite bool_decide_eq_false_2 by apply (sign_nonempty L HL).
Qed.

Lemma cookieSet_LoggedIn (oa or : CookieOptions) (user : IUser) (a t : string) :
  cookieSet "accessToken" (LoggedIn oa or user a t) = Some a ∧
  cookieSet "refreshToken" (LoggedIn oa or user a t) = Some t.
Proof. done. Qed.

(** Tokens signed for the same user with the same key and life time at
    two different instants are different strings. *)
Lemma sign_inj_clock (HL : JwtContract L) (u k : string) (e n1 n2 : Z) :
  jwt_sign u k e n1 = jwt_sign u k e n2 → n1 = n2.
Proof.
  intros Heq.
  pose proof (verify_sign L HL u k e n1 k (Z.min n1 n2 + e - 1)) as H1.
  pose proof (verify_sign L HL u k e n2 k (Z.min n1 n2 + e - 1)) as H2.
  rewrite decide_True in H1 by (split; [done | lia]).
  rewrite decide_True in H2 by (split; [done | lia]).
  rewrite Heq, H2 in H1. by injection H1.
Qed.

(** X1.  While the store answers, an accepted login adds the minted
    refresh token to the ActiveRefreshSet and nothing else: the set
    afterwards is the earlier set with that token, the store still
    answers, the user collection and the clock are untouched, and the two
    cookies carry the two minted tokens. *)
Theorem login_adds_exactly_the_minted_token
    (w : World) (req : Request) (user : IUser) :
  accepted w req user → reachable w →
  let t := mintedRefreshToken env w req in
  let after := login env w req in
  ActiveRefreshSet (after.1) = {[t]} ∪ ActiveRefreshSet w ∧
  reachable (after.1) ∧ mongo (after.1) = mongo w ∧ clock (after.1) = clock w ∧
  cookieSet "refreshToken" (after.2) = Some t ∧
  cookieSet "accessToken" (after.2) =
    Some (generateAccessToken env w (body_username (req_body req))) ∧
  statusCode (after.2) = 200.
Proof.
  intros Ha Hup t after. subst after.
  split; [by apply (login_registers_when_reachable env w req user)|].
  rewrite (login_accepted env _ _ _ Ha). simpl.
  destruct (sadd_up (redis w) "refreshTokens" (mintedRefreshToken env w req) Hup)
    as (n & r' & -> & Hf & _).
  by repeat split.
Qed.

(** X2.  A refresh token obtained from an accepted login is honoured:
    while the store answers and holds the set the login left, a refresh
    that presents the token before its expiry answers 200 with an access
    token minted, at the time of the refresh, for the user name that
    logged in. *)
Theorem login_then_refresh_succeeds
    (w w' : World) (req req' : Request) (user : IUser) :
  JwtContract L → accepted w req user → reachable w →
  later ((login env w req).1) w' → reachable w' →
  clock w' < clock w + JWT_REFRESH_TOKEN_EXPIRATION env →
  cookies req' !! "refreshToken" = Some (mintedRefreshToken env w req) →
  refreshToken env w' req' =
    (w', Refreshed (accessCookieOptions env)
           (generateAccessToken env w' (body_username (req_body req)))).
Proof.
  intros HL Ha Hup Hlater Hup' Hexp Hc.
  rewrite refreshToken_cases, Hc. unfold mintedRefreshToken.
  rewrite (supplied_signed HL). simpl.
  rewrite decide_True.
  - rewrite (verify_sign L HL). by rewrite decide_True.
  - split; [done|]. rewrite (ActiveRefreshSet_later _ _ Hlater).
    rewrite (login_registers_when_reachable env w req user Ha Hup).
    apply elem_of_union_l. by apply elem_of_singleton.
Qed.

(** X3.  Logout revokes: after a logout that the store answered, and as
    long as the stored set stays as the logout left it, every refresh that
    presents the same cookie is answered TokenRevoked (403), whether the
    token still verifies or not. *)
Theorem logout_revokes_refresh_token (w w' : World) (req req' : Request) :
  reachable w → supplied (cookies req !! "refreshToken") →
  later ((logout w req).1) w' →
  cookies req' !! "refreshToken" = cookies req !! "refreshToken" →
  refreshToken env w' req' = (w', TokenRevoked).
Proof.
  intros Hup Hs Hlater Hc.
  destruct (logout_up w req Hup) as (w1 & Hout & _ & _ & _ & Hset).
  rewrite Hout in Hlater. simpl in Hlater.
  rewrite refreshToken_cases, Hc. simpl.
  apply truthy_supplied in Hs. rewrite Hs.
  rewrite decide_False; [done|].
  intros [_ Hin]. rewrite (ActiveRefreshSet_later _ _ Hlater), Hset in Hin.
  apply elem_of_difference in Hin as [_ Hin]. apply Hin.
  by apply elem_of_singleton.
Qed.

Lemma sremMany_up (r : Redis) (key : string) (members : list string) :
  fault r = None → members ≠ [] →
  ∃ n r', sremMany r key members = (Reply n, r') ∧ fault r' = None ∧
          smembers r' key = smembers r key ∖ list_to_set members ∧
          ∀ key', key' ≠ key → smembers r' key' = smembers r key'.
Proof.
  intros Hf Hne. unfold sremMany. rewrite Hf.
  destruct members as [|member members]; [done|].
  eexists _, _. split; [done|]. split; [done|]. split.
  - apply smembers_insert.
  - intros key' Hkey. unfold smembers. simpl. by rewrite lookup_insert_ne.
Qed.

Lemma logout_logoutValue (w : World) (req : Request) :
  logout w req = logoutValue w (CookieText <$> cookies req !! "refreshToken").
Proof.
  unfold logout, logoutValue, srem, sremMany.
  destruct (fault (redis w)) as [e|]; [done|].
  assert (sremArgs (CookieText <$> cookies req !! "refreshToken")
          = [toArg (cookies req !! "refreshToken")]) as ->
    by by destruct (cookies req !! "refreshToken").
  cbn [list_to_set foldr]. unfold list_to_set. cbn [foldr].
  by rewrite (right_id_L ∅ (∪)).
Qed.

(** X4.  A logout that the store answers removes exactly the members
    that are sent for the value of the [refreshToken] cookie, and nothing
    else: one string for a cookie that holds a string (the empty string
    when there is no cookie), every element for a cookie that holds a JSON
    array.  The sets under other keys, the user collection and the clock
    are left alone.  For an empty array the store refuses the command and
    the answer is 500, with the world as it was.  On the cookies that hold
    strings, this is [logout]. *)
Theorem logout_removes_only_presented_members
    (w : World) (token : option CookieValue) :
  reachable w →
  let members := sremArgs token in
  let after := (logoutValue w token).1 in
  (members ≠ [] →
     (logoutValue w token).2 = LoggedOut ∧
     (∀ t, t ∈ ActiveRefreshSet after ↔ t ∈ ActiveRefreshSet w ∧ t ∉ members) ∧
     (∀ key, key ≠ "refreshTokens" →
        smembers (redis after) key = smembers (redis w) key)) ∧
  (members = [] →
     logoutValue w token =
       (w, mkRes 500 []
             (Some (MessageError "Error logging out"
                      "ERR wrong number of arguments for 'srem' command")))) ∧
  mongo after = mongo w ∧ clock after = clock w ∧
  (∀ req, logout w req =
            logoutValue w (CookieText <$> cookies req !! "refreshToken")).
Proof.
  intros Hup members after. subst after members. split; [|split].
  - intros Hne. unfold logoutValue.
    destruct (sremMany_up (redis w) "refreshTokens" (sremArgs token) Hup Hne)
      as (n & r' & -> & _ & Hset & Hkeys).
    cbn [fst snd]. split; [done|]. split; [|exact Hkeys].
    intros t. unfold ActiveRefreshSet. cbn [redis set_redis].
    rewrite Hset, elem_of_difference, elem_of_list_to_set. done.
  - intros Hnil. unfold logoutValue, sremMany.
    rewrite Hup, Hnil. cbn [fst snd]. by rewrite set_redis_same.
  - split; [|split].
    + unfold logoutValue. by destruct (sremMany _ _ _) as [[e|n] r'].
    + unfold logoutValue. by destruct (sremMany _ _ _) as [[e|n] r'].
    + apply logout_logoutValue.
Qed.

(** X5.  When the store fails, logout answers 500 with the store's error
    and sends no header: neither cookie is cleared, and the world is left
    as it was. *)
Theorem logout_store_error_clears_no_cookie (w : World) (req : Request) (e : string) :
  fault (redis w) = Some e →
  (logout w req).1 = w ∧
  statusCode (logout w req).2 = 500 ∧
  headers (logout w req).2 = [] ∧
  cookieCleared "accessToken" (logout w req).2 = false ∧
  cookieCleared "refreshToken" (logout w req).2 = false ∧
  body (logout w req).2 = Some (MessageError "Error logging out" e).
Proof. intros Hf. by rewrite (logout_down w req e Hf). Qed.

(** X6.  Logging out does not take back the access token: with the
    access cookie of an accepted login, the protected route still answers
    with the decoded payload after any logout, and in fact in every state
    of the stores, at every time before the expiry of the access token. *)
Theorem access_token_survives_logout
    (w : World) (req out req' : Request) (user : IUser) (now : Z) :
  JwtContract L → accepted w req user →
  now < clock w + JWT_ACCESS_TOKEN_EXPIRATION env →
  cookies req' !! "accessToken" = cookieSet "accessToken" (login env w req).2 →
  let w2 := (logout (login env w req).1 out).1 in
  let payload :=
    mkPayload (body_username (req_body req)) (clock w)
      (clock w + JWT_ACCESS_TOKEN_EXPIRATION env) in
  getProtected env (mkWorld (redis w2) (mongo w2) now) req' =
    mkRes 200 [] (Some (MessageReqUser "This is a protected route" (Some payload))) ∧
  ∀ r m, getProtected env (mkWorld r m now) req' =
    mkRes 200 [] (Some (MessageReqUser "This is a protected route" (Some payload))).
Proof.
  intros HL Ha Hexp Hc w2 payload.
  rewrite (login_accepted env _ _ _ Ha) in Hc. simpl in Hc.
  rewrite (proj1 (cookieSet_LoggedIn _ _ _ _ _)) in Hc.
  assert (∀ r m, getProtected env (mkWorld r m now) req' =
    mkRes 200 [] (Some (MessageReqUser "This is a protected route" (Some payload))))
    as Hall.
  { intros r m. unfold getProtected. rewrite authenticateJWT_cases, Hc.
    unfold generateAccessToken. rewrite (supplied_signed HL). simpl.
    rewrite (verify_sign L HL). by rewrite decide_True. }
  split; [apply Hall | exact Hall].
Qed.

(** X7.  A refresh token is no access token: with two distinct secrets,
    a request that carries a minted refresh token in the [accessToken]
    cookie is answered Forbidden (403), in every world. *)
Theorem refresh_token_rejected_as_access_token
    (w w' : World) (req req' : Request) :
  JwtContract L →
  JWT_ACCESS_TOKEN_SECRET env ≠ JWT_REFRESH_TOKEN_SECRET env →
  cookies req' !! "accessToken" = Some (mintedRefreshToken env w req) →
  authenticateJWT env w' req' = Responded Forbidden ∧
  getProtected env w' req' = Forbidden.
Proof.
  intros HL Hne Hc. unfold getProtected.
  rewrite authenticateJWT_cases, Hc. unfold mintedRefreshToken.
  rewrite (supplied_signed HL). simpl.
  rewrite (verify_sign L HL).
  rewrite decide_False; [done | by intros [? _]].
Qed.

(** X8.  A refresh token stops working at its expiry instant although
    nothing removes it from the set: for a minted token that the reachable
    store holds, a refresh succeeds when the clock is before the expiry and
    is answered TokenInvalid (403) from the expiry instant on, and in both
    cases the token is still a member afterwards. *)
Theorem refresh_token_works_until_expiry
    (w w' : World) (req req' : Request) :
  JwtContract L →
  let t := mintedRefreshToken env w req in
  let expiry := clock w + JWT_REFRESH_TOKEN_EXPIRATION env in
  memberCheck w' t → cookies req' !! "refreshToken" = Some t →
  (clock w' < expiry →
     (refreshToken env w' req').2 =
       Refreshed (accessCookieOptions env)
         (generateAccessToken env w' (body_username (req_body req)))) ∧
  ((expiry ≤ clock w')%Z → (refreshToken env w' req').2 = TokenInvalid) ∧
  (t ∈ ActiveRefreshSet (refreshToken env w' req').1).
Proof.
  intros HL t expiry Hm Hc. subst t expiry.
  rewrite refreshToken_cases, Hc. unfold mintedRefreshToken in *.
  rewrite (supplied_signed HL). simpl.
  rewrite decide_True by done. rewrite (verify_sign L HL).
  split; [|split].
  - intros Hlt. by rewrite decide_True.
  - intros Hge. rewrite decide_False; [done|]. intros [_ ?]. lia.
  - by destruct Hm.
Qed.

(** X9.  Every cookie that [login] or [refreshToken] sets is httpOnly and
    sameSite strict, is secure exactly when NODE_ENV is "production", and
    is either [accessToken] with a max-age of 15 minutes or [refreshToken]
    with a max-age of 30 days, in milliseconds; [refreshToken] sets at
    most the former. *)
Theorem session_cookies_attributes
    (w : World) (req : Request) (n v : string) (o : CookieOptions) :
  SetCookie n v o ∈ headers (login env w req).2 ∨
  SetCookie n v o ∈ headers (refreshToken env w req).2 →
  httpOnly o = true ∧ sameSite o = "strict" ∧
  secure o = bool_decide (NODE_ENV env = "production") ∧
  ((n = "accessToken" ∧ maxAge o = 900000) ∨
   (n = "refreshToken" ∧ maxAge o = 2592000000 ∧
    SetCookie n v o ∈ headers (login env w req).2)).
Proof.
  intros [Hin | Hin].
  - revert Hin. unfold login.
    destruct (findOne _ _) as [e | [user|]];
      [by intros ?%elem_of_nil | | by intros ?%elem_of_nil].
    destruct (bcryptCompare _ _) as [e | [|]];
      [by intros ?%elem_of_nil | | by intros ?%elem_of_nil].
    unfold generateRefreshToken. destruct (sadd _ _ _) as [rp r]. simpl.
    intros Hin.
    apply elem_of_cons in Hin as [[= -> -> ->] | Hin]; [by repeat split; left|].
    apply list_elem_of_singleton in Hin as [= -> -> ->].
    repeat split; try done. right. repeat split; try done.
    apply list_elem_of_further, list_elem_of_here.
  - rewrite refreshToken_cases in Hin. simpl in Hin.
    destruct (truthy _); [|by apply elem_of_nil in Hin].
    destruct (decide _); [|by apply elem_of_nil in Hin].
    destruct (jwt_verify _ _ _); [|by apply elem_of_nil in Hin].
    apply list_elem_of_singleton in Hin as [= -> -> ->].
    by repeat split; left.
Qed.

(** X10.  A login that is not accepted has no effect: the world is
    returned as it was, so nothing is added to the ActiveRefreshSet, and no
    cookie is set.  The answer is 401 "Invalid credentials" when the user
    collection was read and either knows no such name or the password is a
    string (that does not match); it is 500 "Error logging in" when the
    user collection could not be read, and also when the name is known and
    the password is not a string. *)
Theorem unaccepted_login_has_no_effect (w : World) (req : Request) :
  (∀ user, ¬ accepted w req user) →
  (login env w req).1 = w ∧ headers (login env w req).2 = [] ∧
  ((login env w req).2 = invalidCredentials ∧
   mongo_fault (mongo w) = None ∧
   (findOne (mongo w) (body_username (req_body req)) = Reply None ∨
    ∃ user password,
      findOne (mongo w) (body_username (req_body req)) = Reply (Some user) ∧
      body_password (req_body req) = JsString password ∧
      bcrypt_compare password (user_password user) = false) ∨
   (∃ e, mongo_fault (mongo w) = Some e ∧
         (login env w req).2 =
           mkRes 500 [] (Some (MessageError "Error logging in" e))) ∨
   (∃ user typeOf,
      findOne (mongo w) (body_username (req_body req)) = Reply (Some user) ∧
      body_password (req_body req) = JsOther typeOf ∧
      (login env w req).2 =
        mkRes 500 []
          (Some (MessageError "Error logging in"
                   ("Illegal arguments: " +:+ typeOf +:+ ", string"))))).
Proof.
  intros Hno. unfold login, bcryptCompare.
  destruct (findOne (mongo w) (body_username (req_body req)))
    as [e | [user|]] eqn:Hfind.
  - unfold findOne in Hfind. destruct (mongo_fault (mongo w)) as [e'|]; [|done].
    injection Hfind as ->. split; [done|]. split; [done|].
    right. left. by exists e.
  - destruct (body_password (req_body req)) as [password | typeOf] eqn:Hp.
    + destruct (bcrypt_compare password (user_password user)) eqn:Hpw.
      * exfalso. apply (Hno user). split; [done|]. by exists password.
      * unfold findOne in Hfind. destruct (mongo_fault (mongo w)); [done|].
        split; [done|]. split; [done|]. left. split; [done|]. split; [done|].
        right. by exists user, password.
    + split; [done|]. split; [done|]. right. right. by exists user, typeOf.
  - unfold findOne in Hfind. destruct (mongo_fault (mongo w)); [done|].
    split; [done|]. split; [done|]. left. split; [done|]. split; [done|].
    by left.
Qed.

(** X11.  Sessions of one user that were opened at different instants
    have different refresh tokens, so logging one of them out leaves the
    other one a member of the ActiveRefreshSet. *)
Theorem logout_leaves_other_session
    (w1 w2 w : World) (req out : Request) :
  JwtContract L → clock w1 ≠ clock w2 → reachable w →
  cookies out !! "refreshToken" = Some (mintedRefreshToken env w1 req) →
  mintedRefreshToken env w2 req ∈ ActiveRefreshSet w →
  mintedRefreshToken env w1 req ≠ mintedRefreshToken env w2 req ∧
  mintedRefreshToken env w2 req ∈ ActiveRefreshSet (logout w out).1 ∧
  (mintedRefreshToken env w1 req ∉ ActiveRefreshSet (logout w out).1).
Proof.
  intros HL Hclock Hup Hc Hin.
  assert (mintedRefreshToken env w1 req ≠ mintedRefreshToken env w2 req) as Hne.
  { unfold mintedRefreshToken. intros Heq.
    apply (sign_inj_clock HL) in Heq. by apply Hclock. }
  split; [exact Hne|].
  destruct (logout_up w out Hup) as (w' & -> & _ & _ & _ & Hset). simpl.
  rewrite Hset, Hc. simpl.
  rewrite !elem_of_difference, !elem_of_singleton. split; [|tauto].
  split; [done | by intros ?].
Qed.

(** X20.  The access token of a successful refresh opens the protected
    route: it carries the user name of the refresh token that was
    presented, and is accepted in every state of the stores at every time
    before its expiry. *)
Theorem refreshed_access_token_is_accepted
    (w : World) (req req' : Request) (a : string) (now : Z) :
  JwtContract L →
  (refreshToken env w req).2 = Refreshed (accessCookieOptions env) a →
  now < clock w + JWT_ACCESS_TOKEN_EXPIRATION env →
  cookies req' !! "accessToken" = Some a →
  ∃ user,
    jwt_verify (toArg (cookies req !! "refreshToken"))
      (JWT_REFRESH_TOKEN_SECRET env) (clock w) = Some user ∧
    ∀ r m,
      getProtected env (mkWorld r m now) req' =
        mkRes 200 []
          (Some (MessageReqUser "This is a protected route"
                   (Some (mkPayload (username user) (clock w)
                            (clock w + JWT_ACCESS_TOKEN_EXPIRATION env))))).
Proof.
  intros HL Hres Hexp Hc. rewrite refreshToken_cases in Hres. simpl in Hres.
  destruct (truthy _); [|done]. destruct (decide _) as [Hm|]; [|done].
  destruct (jwt_verify _ _ _) as [user|]; [|done].
  injection Hres as <-. exists user. split; [done|].
  intros r m. unfold getProtected. rewrite authenticateJWT_cases, Hc.
  unfold generateAccessToken. rewrite (supplied_signed HL). simpl.
  rewrite (verify_sign L HL). by rewrite decide_True.
Qed.

End Sessions.

(** ** Registration *)

(** *** The expression for e-mail addresses *)

Lemma emailRun_Tail (l : list ascii) : emailRun Tail l = Tail.
Proof. induction l as [|x l IH]; [done | exact IH]. Qed.

Lemma emailRun_AfterDot (l : list ascii) :
  isTail (emailRun AfterDot l) = true ↔ l ≠ [].
Proof.
  destruct l as [|x l]; [done|].
  change (emailRun AfterDot (x :: l)) with (emailRun Tail l).
  by rewrite emailRun_Tail.
Qed.

Lemma emailRun_Domain (l : list ascii) :
  isTail (emailRun Domain l) = true ↔
  ∃ b c, l = (b ++ "."%char :: c)%list ∧ c ≠ [].
Proof.
  induction l as [|x l IH].
  - split; [done|]. intros (b & c & Hl & _). by destruct b.
  - change (emailRun Domain (x :: l)) with (emailRun (emailStep Domain x) l).
    simpl. destruct (Ascii.eqb_spec x "."%char) as [->|Hx].
    + rewrite emailRun_AfterDot. split.
      * intros Hl. by exists [], l.
      * intros (b & c & Hl & Hc). destruct b as [|y b]; simpl in Hl.
        -- by injection Hl as ->.
        -- injection Hl as _ ->. by destruct b.
    + rewrite IH. split.
      * intros (b & c & -> & Hc). by exists (x :: b), c.
      * intros (b & c & Hl & Hc). destruct b as [|y b]; simpl in Hl.
        -- by injection Hl as -> _.
        -- injection Hl as _ ->. by exists b, c.
Qed.

Lemma emailRun_AfterAt (l : list ascii) :
  isTail (emailRun AfterAt l) = true ↔
  ∃ b c, l = (b ++ "."%char :: c)%list ∧ b ≠ [] ∧ c ≠ [].
Proof.
  destruct l as [|x l].
  - split; [done|]. intros (b & c & Hl & _). by destruct b.
  - change (emailRun AfterAt (x :: l)) with (emailRun Domain l).
    rewrite emailRun_Domain. split.
    + intros (b & c & -> & Hc). by exists (x :: b), c.
    + intros (b & c & Hl & Hb & Hc). destruct b as [|y b]; [done|].
      injection Hl as _ ->. by exists b, c.
Qed.

Lemma emailRun_Local (l : list ascii) :
  isTail (emailRun Local l) = true ↔
  ∃ a b c, l = (a ++ "@"%char :: b ++ "."%char :: c)%list ∧ b ≠ [] ∧ c ≠ [].
Proof.
  induction l as [|x l IH].
  - split; [done|]. intros (a & b & c & Hl & _). by destruct a.
  - change (emailRun Local (x :: l)) with (emailRun (emailStep Local x) l).
    simpl. destruct (Ascii.eqb_spec x "@"%char) as [->|Hx].
    + rewrite emailRun_AfterAt. split.
      * intros (b & c & -> & Hb & Hc). by exists [], b, c.
      * intros (a & b & c & Hl & Hb & Hc). destruct a as [|y a]; simpl in Hl.
        -- injection Hl as ->. by exists b, c.
        -- injection Hl as _ ->.
           exists (a ++ "@"%char :: b)%list, c.
           rewrite <- app_assoc. simpl. split; [done|]. split; [|done].
           by destruct a.
    + rewrite IH. split.
      * intros (a & b & c & -> & Hb & Hc). by exists (x :: a), b, c.
      * intros (a & b & c & Hl & Hb & Hc). destruct a as [|y a]; simpl in Hl.
        -- by injection Hl as -> _.
        -- injection Hl as _ ->. by exists a, b, c.
Qed.

Lemma emailRun_Start (l : list ascii) :
  isTail (emailRun Start l) = true ↔
  ∃ a b c, l = (a ++ "@"%char :: b ++ "."%char :: c)%list ∧
           a ≠ [] ∧ b ≠ [] ∧ c ≠ [].
Proof.
  destruct l as [|x l].
  - split; [done|]. intros (a & b & c & Hl & _). by destruct a.
  - change (emailRun Start (x :: l)) with (emailRun Local l).
    rewrite emailRun_Local. split.
    + intros (a & b & c & -> & Hb & Hc). by exists (x :: a), b, c.
    + intros (a & b & c & Hl & Ha & Hb & Hc). destruct a as [|y a]; [done|].
      injection Hl as _ ->. by exists a, b, c.
Qed.

(** X12.  The check of the [email] path accepts exactly the texts that
    [/^\S+@\S+\.\S+$/] denotes: a non-empty part, an at sign, a non-empty
    part, a dot and a non-empty part, none of them with white space. *)
Theorem matchEmail_spec (s : string) :
  matchEmail s = true ↔ emailShape (String.list_ascii_of_string s).
Proof.
  unfold matchEmail, emailShape.
  rewrite andb_true_iff, emailRun_Start, forallb_forall.
  assert ((∀ x, In x (String.list_ascii_of_string s) → negb (isSpace x) = true) ↔
          Forall (λ x, isSpace x = false) (String.list_ascii_of_string s)) as ->.
  { rewrite Forall_forall. split; intros Hall x Hx.
    - apply list_elem_of_In, Hall in Hx. by destruct (isSpace x).
    - apply list_elem_of_In, Hall in Hx. by rewrite Hx. }
  split.
  - intros [Hsp (a & b & c & Hl & Ha & Hb & Hc)]. by exists a, b, c.
  - intros (a & b & c & Hl & Ha & Hb & Hc & Hsp). split; [done|]. by exists a, b, c.
Qed.

(** *** Saving a document *)

Lemma save_Reply (m m' : Mongo) (refused : option string) (input : UserInput)
    (doc : IUser) :
  save m refused input = Reply (doc, m') ↔
  validate input = true ∧ mongo_fault m = None ∧
  duplicateKey (users m) (document input) = false ∧ refused = None ∧
  doc = document input ∧ m' = mkMongo None (users m ++ [document input]).
Proof.
  unfold save.
  destruct (validate input); [|split; [done | by intros [? _]]].
  destruct (mongo_fault m) as [e|]; [split; [done | by intros (_ & ? & _)]|].
  destruct (duplicateKey _ _); [split; [done | by intros (_ & _ & ? & _)]|].
  destruct refused as [e|]; [split; [done | by intros (_ & _ & _ & ? & _)]|].
  split.
  - by intros [= <- <-].
  - by intros (_ & _ & _ & _ & -> & ->).
Qed.

Lemma save_cases (m : Mongo) (refused : option string) (input : UserInput) :
  (∃ e, save m refused input = Err e) ∨
  save m refused input =
    Reply (document input, mkMongo None (users m ++ [document input])).
Proof.
  unfold save. destruct (validate input); [|eauto].
  destruct (mongo_fault m); [eauto|].
  destruct (duplicateKey _ _); [eauto|].
  destruct refused; eauto.
Qed.

Lemma duplicateKey_false (us : list IUser) (doc : IUser) :
  duplicateKey us doc = false ↔
  (user_username doc ∉ user_username <$> us) ∧
  (user_email doc ∉ user_email <$> us).
Proof.
  unfold duplicateKey. induction us as [|u us IH]; simpl.
  - split; [|done]. intros _. split; by intros ?%elem_of_nil.
  - rewrite orb_false_iff, IH, orb_false_iff, !bool_decide_eq_false.
    rewrite !not_elem_of_cons. intuition congruence.
Qed.

Lemma find_app_fresh (us : list IUser) (doc : IUser) :
  user_username doc ∉ user_username <$> us →
  List.find (λ u, bool_decide (user_username u = user_username doc)) (us ++ [doc])
    = Some doc.
Proof.
  induction us as [|u us IH]; simpl; intros Hout.
  - by rewrite bool_decide_eq_true_2.
  - apply not_elem_of_cons in Hout as [Hne Hout].
    rewrite bool_decide_eq_false_2 by done. by apply IH.
Qed.

Lemma find_app_found {A} (f : A → bool) (l l' : list A) (x : A) :
  List.find f l = Some x → List.find f (l ++ l') = Some x.
Proof.
  induction l as [|y l IH]; simpl; [done|]. by destruct (f y).
Qed.

Lemma validate_document (input : UserInput) :
  validate input = true → validDocument (document input).
Proof.
  unfold validate, validDocument, document. destruct input as [u p e g n a r].
  simpl. rewrite !andb_true_iff.
  intros ((((((((Hu & Hu3) & He) & Hem) & Hp) & Hp8) & Hn) & _) & Hr).
  destruct u as [u|], p as [p|], e as [e|], n as [n|]; try done. simpl in *.
  apply bool_decide_eq_true in Hu3, Hp8.
  split; [done|]. split; [|split; [done|split]].
  - destruct (decide (e = EmptyString)) as [->|Hne]; [done|].
    by rewrite bool_decide_eq_false_2 in Hem.
  - intros ->. by rewrite bool_decide_eq_true_2 in Hn.
  - intros role Hrole. destruct r as [| |r]; simpl in *.
    + injection Hrole as <-. apply list_elem_of_here.
    + done.
    + injection Hrole as <-. by apply bool_decide_eq_true in Hr.
Qed.

Lemma wellFormed_snoc (us : list IUser) (doc : IUser) :
  wellFormed us → duplicateKey us doc = false → validDocument doc →
  wellFormed (us ++ [doc]).
Proof.
  intros (Hu & He & Hv) [Hnu Hne]%duplicateKey_false Hdoc.
  unfold wellFormed. rewrite !fmap_app. simpl.
  split; [|split].
  - apply NoDup_app. split; [done|]. split; [|apply NoDup_singleton].
    intros x Hx ->%list_elem_of_singleton. done.
  - apply NoDup_app. split; [done|]. split; [|apply NoDup_singleton].
    intros x Hx ->%list_elem_of_singleton. done.
  - apply Forall_app. split; [done|]. by apply Forall_singleton.
Qed.

Section RegistrationProperties.
Context {L : Libs} {H : Hasher} (env : Env).

Lemma hash_supplied (HH : HashContract L H) (p : string) (r : Z) (s : string) :
  required (Some (bcrypt_hash p r s)) = true ∧
  minlength 8 (Some (bcrypt_hash p r s)) = true.
Proof.
  pose proof (hash_length L H HH p r s) as Hlen. simpl. split.
  - destruct (bcrypt_hash p r s); [done|].
    by rewrite bool_decide_eq_false_2.
  - apply bool_decide_eq_true. lia.
Qed.

Lemma register_cases (w : World) (form : RegisterBody) (salt : string) :
  (∃ e, register w form salt =
          (w, mkRes 500 [] (Some (MessageError "Error registering user" e)))) ∨
  (∃ p doc,
     reg_password form = Some p ∧
     doc = document
             (mkInput (reg_username form) (Some (bcrypt_hash p 10 salt))
                (reg_email form) (reg_gender form) (reg_name form)
                (reg_address form) (reg_role form)) ∧
     validate
       (mkInput (reg_username form) (Some (bcrypt_hash p 10 salt))
          (reg_email form) (reg_gender form) (reg_name form)
          (reg_address form) (reg_role form)) = true ∧
     mongo_fault (mongo w) = None ∧
     duplicateKey (users (mongo w)) doc = false ∧
     register w form salt =
       (mkWorld (redis w) (mkMongo None (users (mongo w) ++ [doc])) (clock w),
        mkRes 201 [] (Some (MessageUser "User registered successfully" doc)))).
Proof.
  unfold register. destruct (reg_password form) as [p|]; [|left; eauto].
  destruct (save _ _ _) as [e | [doc m]] eqn:Hsave; [left; eauto|].
  apply save_Reply in Hsave as (Hv & Hf & Hd & _ & -> & ->).
  right. by exists p, (document (mkInput (reg_username form)
    (Some (bcrypt_hash p 10 salt)) (reg_email form) (reg_gender form)
    (reg_name form) (reg_address form) (reg_role form))).
Qed.

(** X13.  Who has registered can log in: when [register] answers 201,
    a login with the user name and the password of the registration is
    accepted in the resulting world, and answers 200 with the stored
    document. *)
Theorem register_then_login_accepted
    (w : World) (form : RegisterBody) (salt : string) (c : gmap string string) :
  HashContract L H →
  statusCode (register w form salt).2 = 201 →
  ∃ u p user,
    reg_username form = Some u ∧ reg_password form = Some p ∧
    body (register w form salt).2 =
      Some (MessageUser "User registered successfully" user) ∧
    user_username user = u ∧
    user_password user = bcrypt_hash p 10 salt ∧
    accepted (register w form salt).1 (mkReq c (mkBody u (JsString p)) None) user ∧
    statusCode (login env (register w form salt).1 (mkReq c (mkBody u (JsString p)) None)).2
      = 200 ∧
    body (login env (register w form salt).1 (mkReq c (mkBody u (JsString p)) None)).2
      = Some (MessageUser "Logged in successfully" user).
Proof.
  intros HH H201.
  destruct (register_cases w form salt)
    as [[e He] | (p & doc & Hp & -> & Hv & Hf & Hd & Hreg)].
  { by rewrite He in H201. }
  rewrite Hreg. cbn [fst snd].
  unfold validate in Hv. simpl in Hv. rewrite !andb_true_iff in Hv.
  destruct Hv as ((((((((Hu & _) & _) & _) & _) & _) & _) & _) & _).
  destruct (reg_username form) as [u|] eqn:Hbu; [|done].
  set (doc := document _) in *.
  assert (accepted
            (mkWorld (redis w) (mkMongo None (users (mongo w) ++ [doc])) (clock w))
            (mkReq c (mkBody u (JsString p)) None) doc) as Hacc.
  { split; simpl.
    - unfold findOne. simpl. f_equal.
      apply duplicateKey_false in Hd as [Hnu _].
      exact (find_app_fresh _ doc Hnu).
    - exists p. split; [done|]. apply (compare_hash L H HH). }
  exists u, p, doc.
  do 5 (split; [done|]). split; [exact Hacc|].
  by rewrite (login_accepted env _ _ _ Hacc).
Qed.

Lemma register_status
    (w : World) (u e g n a : option string) (r : Field) (age : option Z)
    (q s : string) :
  statusCode (register w (mkRegister u (Some q) e g age n a r) s).2 =
    if validate (mkInput u (Some (bcrypt_hash q 10 s)) e g n a r) &&
       bool_decide (mongo_fault (mongo w) = None) &&
       negb (duplicateKey (users (mongo w))
               (document (mkInput u (Some (bcrypt_hash q 10 s)) e g n a r)))
    then 201 else 500.
Proof.
  unfold register, save. cbn [reg_password reg_username reg_email reg_gender
    reg_name reg_address reg_role].
  destruct (validate _); [|done].
  destruct (mongo_fault (mongo w)); [done|].
  by destruct (duplicateKey _ _).
Qed.

Lemma validate_hashed (HH : HashContract L H)
    (u e g n a : option string) (r : Field) (q s : string) :
  validate (mkInput u (Some (bcrypt_hash q 10 s)) e g n a r) =
    required u && minlength 3 u && required e && matches e && required n &&
    enum ["male"; "female"; "other"] g && enumField ["customer"; "admin"] r.
Proof.
  unfold validate.
  cbn [in_username in_password in_email in_gender in_name in_address in_role].
  destruct (hash_supplied HH q 10 s) as [-> ->].
  by rewrite !andb_true_r.
Qed.

(** X14.  [register] enforces no length of the password: the validator
    [minlength: 8] of the schema sees the 60 characters of the hash, so
    whether a registration is answered 201 or 500 does not depend on the
    password that was given, be it the empty string. *)
Theorem register_ignores_password_length
    (w : World) (u e g n a : option string) (r : Field) (age : option Z)
    (p p' salt salt' : string) :
  HashContract L H →
  statusCode (register w (mkRegister u (Some p) e g age n a r) salt).2 =
  statusCode (register w (mkRegister u (Some p') e g age n a r) salt').2 ∧
  statusCode (register w (mkRegister u (Some p) e g age n a r) salt).2 =
  statusCode (register w (mkRegister u (Some EmptyString) e g age n a r) salt).2.
Proof.
  intros HH. by rewrite !register_status, !(validate_hashed HH).
Qed.

(** X15.  [register] keeps the user collection as the schema wants it:
    if user names and e-mail addresses are pairwise distinct and every
    document meets the validators, the same holds after any registration,
    accepted or not. *)
Theorem register_keeps_collection_wellformed
    (w : World) (form : RegisterBody) (salt : string) :
  wellFormed (users (mongo w)) →
  wellFormed (users (mongo (register w form salt).1)).
Proof.
  intros Hwf.
  destruct (register_cases w form salt)
    as [[e ->] | (p & doc & Hp & -> & Hv & Hf & Hd & ->)]; [done|].
  cbn [fst mongo users].
  apply wellFormed_snoc; [done | done | by apply validate_document].
Qed.

(** X16.  A registration touches nothing but the end of the user
    collection: Redis and the clock are as before, no cookie is set, at
    most one document is appended after the existing ones, and every
    login that was accepted before is accepted afterwards, for the same
    stored document. *)
Theorem register_leaves_accounts_and_sessions
    (w : World) (form : RegisterBody) (salt : string)
    (req : Request) (user : IUser) :
  let after := (register w form salt).1 in
  redis after = redis w ∧ clock after = clock w ∧
  headers (register w form salt).2 = [] ∧
  (∃ added : list IUser, users (mongo after) = (users (mongo w) ++ added)%list ∧
            (length added ≤ 1)%nat) ∧
  (accepted w req user → accepted after req user).
Proof.
  intros after. subst after.
  destruct (register_cases w form salt)
    as [[e ->] | (p & doc & Hp & -> & Hv & Hf & Hd & ->)]; cbn [fst snd].
  - do 3 (split; [done|]). split; [|done].
    exists []. split; [by rewrite app_nil_r | simpl; lia].
  - do 3 (split; [done|]). split.
    + eexists [_]. split; [done | simpl; lia].
    + intros [Hfind Hpw]. split; [|done].
      unfold findOne in *. cbn [mongo mongo_fault users]. rewrite Hf in Hfind.
      injection Hfind as Hfind. f_equal. by apply find_app_found.
Qed.

End RegistrationProperties.

(** *** The bulk registration *)

Section BulkProperties.
Context {H : Hasher}.
Variable salts : nat → string.
Variable refusesId : list IUser → string → option string.

Lemma madeFrom_cons (mock : MockUser) (mocks : list MockUser) (u : IUser) :
  madeFrom salts mocks u → madeFrom salts (mock :: mocks) u.
Proof.
  intros (k & i & Hin & Hk). exists k, i. split; [|done].
  by apply list_elem_of_further.
Qed.

(** What the loop does to the collection and to the list of registered
    users, whatever the entries are. *)
Lemma registerLoop_inv (mocks : list MockUser) :
  ∀ (m : Mongo) (drawn : nat) (registered : list IUser),
    ∃ added : list IUser,
      (registerLoop salts refusesId mocks m drawn registered).2
        = (registered ++ added)%list ∧
      users (registerLoop salts refusesId mocks m drawn registered).1
        = (users m ++ added)%list ∧
      (added = [] →
         (registerLoop salts refusesId mocks m drawn registered).1 = m) ∧
      (length added ≤ length mocks)%nat ∧
      Forall (madeFrom salts mocks) added ∧
      (mongo_fault m ≠ None → added = []) ∧
      (wellFormed (users m) → wellFormed (users m ++ added)%list).
Proof.
  induction mocks as [|user rest IH]; intros m drawn registered.
  - exists []. simpl. rewrite !app_nil_r. split_and!; try done.
  - cbn [registerLoop].
    destruct (negb (truthy (mock_username user)) ||
              negb (truthy (mock_password user)) ||
              negb (truthy (mock_email user)) ||
              negb (truthy (mock_gender user)) ||
              negb (truthy (mock_name user))) eqn:Hskip.
    { destruct (IH m drawn registered)
        as (added & H1 & H2 & H3 & H4 & H5 & H6 & H7).
      exists added. split_and!; try done.
      - simpl. lia.
      - eapply Forall_impl; [exact H5|]. intros u. apply madeFrom_cons. }
    rewrite !orb_false_iff, !negb_false_iff in Hskip.
    destruct Hskip as ((((Hu & Hp) & He) & Hg) & Hn).
    set (refused := if bool_decide (mock_oid user = EmptyString) then None
                    else refusesId (users m) (mock_oid user)).
    set (input := mkInput _ _ _ _ _ _ _).
    destruct (save m refused input) as [e | [saved m']] eqn:Hsave.
    { destruct (IH m (S drawn) registered)
        as (added & H1 & H2 & H3 & H4 & H5 & H6 & H7).
      exists added. split_and!; try done.
      - simpl. lia.
      - eapply Forall_impl; [exact H5|]. intros u. apply madeFrom_cons. }
    apply save_Reply in Hsave as (Hv & Hf & Hd & _ & -> & ->).
    destruct (IH (mkMongo None (users m ++ [document input])) (S drawn)
                (registered ++ [document input])%list)
      as (added & H1 & H2 & H3 & H4 & H5 & H6 & H7).
    exists (document input :: added).
    rewrite H1, H2. cbn [users]. rewrite <- !app_assoc. cbn [app].
    split; [done|]. split; [done|]. split; [done|].
    split; [simpl; lia|]. split; [|split].
    + apply Forall_cons. split.
      * exists user, drawn. split; [apply list_elem_of_here|].
        split; [unfold complete; by rewrite <- !truthy_supplied|]. done.
      * eapply Forall_impl; [exact H5|]. intros u. apply madeFrom_cons.
    + intros Hfault. by rewrite Hf in Hfault.
    + intros Hwf. cbn [users] in H7.
      rewrite <- app_assoc in H7. apply H7.
      apply wellFormed_snoc; [done | done | by apply validate_document].
Qed.

(** The entries the loop stores, in the order of the data. *)
Lemma registerLoop_kept (mocks : list MockUser) :
  ∀ (m : Mongo) (drawn : nat) (registered : list IUser),
    ∃ kept : list (MockUser * nat),
      sublist (fst <$> kept) mocks ∧
      Forall (λ k, complete k.1) kept ∧
      (registerLoop salts refusesId mocks m drawn registered).2
        = (registered ++ documentsOf salts kept)%list ∧
      users (registerLoop salts refusesId mocks m drawn registered).1
        = (users m ++ documentsOf salts kept)%list.
Proof.
  induction mocks as [|user rest IH]; intros m drawn registered.
  - exists []. cbn. rewrite !app_nil_r. by split_and!.
  - cbn [registerLoop].
    destruct (negb (truthy (mock_username user)) ||
              negb (truthy (mock_password user)) ||
              negb (truthy (mock_email user)) ||
              negb (truthy (mock_gender user)) ||
              negb (truthy (mock_name user))) eqn:Hskip.
    { destruct (IH m drawn registered) as (kept & H1 & H2 & H3 & H4).
      exists kept. split_and!; try done. by apply sublist_cons. }
    rewrite !orb_false_iff, !negb_false_iff in Hskip.
    destruct Hskip as ((((Hu & Hp) & He) & Hg) & Hn).
    set (refused := if bool_decide (mock_oid user = EmptyString) then None
                    else refusesId (users m) (mock_oid user)).
    change (mkInput _ _ _ _ _ _ _) with (entryInput salts user drawn).
    destruct (save m refused (entryInput salts user drawn))
      as [e | [saved m']] eqn:Hsave.
    { destruct (IH m (S drawn) registered) as (kept & H1 & H2 & H3 & H4).
      exists kept. split_and!; try done. by apply sublist_cons. }
    apply save_Reply in Hsave as (Hv & Hf & Hd & _ & -> & ->).
    destruct (IH (mkMongo None
                    (users m ++ [document (entryInput salts user drawn)])%list)
                (S drawn)
                (registered ++ [document (entryInput salts user drawn)])%list)
      as (kept & H1 & H2 & H3 & H4).
    exists ((user, drawn) :: kept).
    rewrite H3, H4. cbn [users]. rewrite <- !app_assoc.
    split_and!; try done.
    + rewrite fmap_cons. by apply sublist_skip.
    + apply Forall_cons. split; [|done].
      unfold complete. cbn [fst]. by rewrite <- !truthy_supplied.
Qed.

Lemma duplicateKey_true (us : list IUser) (doc : IUser) :
  duplicateKey us doc = true →
  ∃ u, u ∈ us ∧ (user_username u = user_username doc ∨
                 user_email u = user_email doc).
Proof.
  unfold duplicateKey. intros (u & Hin & Hu)%existsb_exists.
  exists u. split; [by apply list_elem_of_In|].
  apply orb_true_iff in Hu as [Hu | Hu]; apply bool_decide_eq_true in Hu; auto.
Qed.

(** With the database up, the loop leaves no storable entry out: the
    user name or the e-mail address of every complete entry that passes
    validation, and whose [_id] is not refused, is in the collection
    afterwards. *)
Lemma registerLoop_progress (mocks : list MockUser) :
  ∀ (m : Mongo) (drawn : nat) (registered : list IUser) (mock : MockUser),
    mongo_fault m = None → mock ∈ mocks → complete mock →
    (∀ i, validate (entryInput salts mock i) = true) →
    (mock_oid mock = EmptyString ∨ ∀ us, refusesId us (mock_oid mock) = None) →
    ∃ u, u ∈ users (registerLoop salts refusesId mocks m drawn registered).1 ∧
         (user_username u = toArg (mock_username mock) ∨
          user_email u = toArg (mock_email mock)).
Proof.
  induction mocks as [|user rest IH];
    intros m drawn registered mock Hf Hin Hc Hv Hid.
  { by apply elem_of_nil in Hin. }
  cbn [registerLoop].
  destruct (negb (truthy (mock_username user)) ||
            negb (truthy (mock_password user)) ||
            negb (truthy (mock_email user)) ||
            negb (truthy (mock_gender user)) ||
            negb (truthy (mock_name user))) eqn:Hskip.
  { apply elem_of_cons in Hin as [-> | Hin]; [|by apply IH].
    exfalso. destruct Hc as (Hu & Hp & He & Hg & Hn).
    apply truthy_supplied in Hu, Hp, He, Hg, Hn.
    by rewrite Hu, Hp, He, Hg, Hn in Hskip. }
  set (refused := if bool_decide (mock_oid user = EmptyString) then None
                  else refusesId (users m) (mock_oid user)).
  change (mkInput _ _ _ _ _ _ _) with (entryInput salts user drawn).
  destruct (save m refused (entryInput salts user drawn))
    as [e | [saved m']] eqn:Hsave.
  - apply elem_of_cons in Hin as [-> | Hin]; [|by apply IH].
    assert (refused = None) as Href.
    { subst refused. destruct Hid as [-> | Hid]; [done|].
      by destruct (bool_decide _). }
    unfold save in Hsave. rewrite Hv, Hf, Href in Hsave.
    destruct (duplicateKey (users m) (document (entryInput salts user drawn)))
      eqn:Hdup; [|done].
    apply duplicateKey_true in Hdup as (u & Hu & Hsame).
    exists u. split; [|exact Hsame].
    destruct (registerLoop_inv rest m (S drawn) registered)
      as (added & _ & -> & _).
    apply elem_of_app. by left.
  - apply save_Reply in Hsave as (_ & _ & _ & _ & -> & ->).
    apply elem_of_cons in Hin as [-> | Hin]; [|by apply IH].
    exists (document (entryInput salts user drawn)). split; [|by left].
    destruct (registerLoop_inv rest
                (mkMongo None
                   (users m ++ [document (entryInput salts user drawn)])%list)
                (S drawn)
                (registered ++ [document (entryInput salts user drawn)])%list)
      as (added & _ & -> & _).
    cbn [users]. apply elem_of_app. left. apply elem_of_app. right.
    apply list_elem_of_here.
Qed.

(** X17.  [registerMultipleUsers] stores the entries it keeps in the
    order of the data: the kept entries are a sub-list of the data, each
    has all five checked fields, and the collection afterwards is the
    earlier one followed by their documents, password hashed, which is
    also the list the answer reports.  Redis and the clock are untouched.
    The answer is 201 with the list when at least one user was stored, and
    otherwise 400, with the world as it was.  With the database up no
    storable entry is left out: for every complete entry that passes
    validation and whose [_id] is not refused, the collection afterwards
    holds a document with its user name or its e-mail address. *)
Theorem registerMultipleUsers_outcome (data : list MockUser) (w : World) :
  let result := registerMultipleUsers data salts refusesId w in
  redis (result.1) = redis w ∧ clock (result.1) = clock w ∧
  (∃ kept : list (MockUser * nat),
     sublist (fst <$> kept) data ∧
     Forall (λ k, complete k.1) kept ∧
     users (mongo (result.1)) = (users (mongo w) ++ documentsOf salts kept)%list ∧
     (kept ≠ [] ∧
      result.2 =
        (201, BulkUsers "Users registered successfully" (documentsOf salts kept)) ∨
      kept = [] ∧ result.1 = w ∧
      result.2 = (400, BulkMessage "No users were registered due to errors"))) ∧
  (mongo_fault (mongo w) = None →
   ∀ mock, mock ∈ data → complete mock →
     (∀ i, validate (entryInput salts mock i) = true) →
     (mock_oid mock = EmptyString ∨ ∀ us, refusesId us (mock_oid mock) = None) →
     ∃ u, u ∈ users (mongo (result.1)) ∧
          (user_username u = toArg (mock_username mock) ∨
           user_email u = toArg (mock_email mock))).
Proof.
  intros result. subst result. unfold registerMultipleUsers.
  pose proof (registerLoop_progress data (mongo w) 0 []) as Hprogress.
  destruct (registerLoop_inv data (mongo w) 0 [])
    as (added & Ha1 & Ha2 & Ha3 & _).
  destruct (registerLoop_kept data (mongo w) 0 [])
    as (kept & H1 & H2 & H3 & H4).
  destruct (registerLoop salts refusesId data (mongo w) 0 []) as [m reg].
  cbn [fst snd mongo app] in *. subst reg.
  assert (added = documentsOf salts kept) as -> by done.
  split; [done|]. split; [done|]. split.
  - exists kept. split; [done|]. split; [done|]. split; [done|].
    destruct kept as [|k kept].
    + right. split; [done|]. rewrite Ha3 by done.
      split; [by destruct w|].
      by rewrite bool_decide_eq_false_2 by (cbn; lia).
    + left. split; [done|].
      by rewrite bool_decide_eq_true_2 by (cbn; lia).
  - intros Hf mock Hin Hc Hv Hid. by apply Hprogress.
Qed.

(** X18.  [registerMultipleUsers] keeps the user collection as the schema
    wants it: distinct user names, distinct e-mail addresses, every
    document valid, whatever the data contain. *)
Theorem registerMultipleUsers_keeps_collection_wellformed
    (data : list MockUser) (w : World) :
  wellFormed (users (mongo w)) →
  wellFormed (users (mongo (registerMultipleUsers data salts refusesId w).1)).
Proof.
  intros Hwf. unfold registerMultipleUsers.
  destruct (registerLoop_inv data (mongo w) 0 [])
    as (added & _ & H2 & _ & _ & _ & _ & H7).
  destruct (registerLoop salts refusesId data (mongo w) 0 []) as [m reg].
  cbn [fst snd mongo] in *. rewrite H2. by apply H7.
Qed.

(** X19.  While the database is down, [registerMultipleUsers] stores
    nothing and answers 400 "No users were registered due to errors", not
    500: the failure of each save is caught inside the loop. *)
Theorem registerMultipleUsers_database_down
    (data : list MockUser) (w : World) (e : string) :
  mongo_fault (mongo w) = Some e →
  registerMultipleUsers data salts refusesId w =
    (w, (400, BulkMessage "No users were registered due to errors")).
Proof.
  intros Hf. unfold registerMultipleUsers.
  destruct (registerLoop_inv data (mongo w) 0 [])
    as (added & H1 & _ & H3 & _ & _ & H6 & _).
  destruct (registerLoop salts refusesId data (mongo w) 0 []) as [m reg].
  cbn [fst snd] in *.
  rewrite H6 in H1, H3 by (by rewrite Hf). subst reg.
  rewrite H3 by done. by destruct w.
Qed.

End BulkProperties.

(** ** The handlers on concrete requests *)

#[local] Existing Instance Reference.libs.

Lemma alice_accepted (r : Redis) (now : Z) :
  accepted (mkWorld r mongo0 now) (loginReq "alice" "correct horse") alice.
Proof. split; [done|]. by exists "correct horse". Qed.

(** The scenario of a whole session: login, refresh, logout, refresh. *)
Example session_scenario :
  let w1 := (login env0 world0 (loginReq "alice" "correct horse")).1 in
  let req := cookieReq "refreshToken" aliceRefreshToken in
  cookieSet "refreshToken"
    (login env0 world0 (loginReq "alice" "correct horse")).2
    = Some aliceRefreshToken ∧
  w1 = world_member ∧
  refreshToken env0 w1 req =
    (w1, Refreshed (accessCookieOptions env0)
           (Reference.sign "alice" "access-secret" 900 1000)) ∧
  (logout w1 req).2 = LoggedOut ∧
  ActiveRefreshSet (logout w1 req).1 = ∅ ∧
  (refreshToken env0 (logout w1 req).1 req).2 = TokenRevoked.
Proof. vm_compute. by repeat split. Qed.

(** C2.  With Redis unreachable, [logout] answers 500 with the error of
    the store, but [refreshToken], presented with a valid refresh token
    that the store holds, answers 403 "Invalid refresh token": the very
    answer, status and body, that a reachable store without the token
    gives. *)
Theorem refresh_reports_unreachable_store_as_revoked :
  let req := cookieReq "refreshToken" aliceRefreshToken in
  fault (redis world_member_down) = Some "ECONNREFUSED" ∧
  aliceRefreshToken ∈ ActiveRefreshSet world_member_down ∧
  is_Some (jwt_verify aliceRefreshToken (JWT_REFRESH_TOKEN_SECRET env0)
             (clock world_member_down)) ∧
  (refreshToken env0 world_member_down req).2 = TokenRevoked ∧
  (refreshToken env0 world0 req).2 = TokenRevoked ∧
  statusCode TokenRevoked = 403 ∧
  body TokenRevoked = Some (Message "Invalid refresh token") ∧
  (logout world_member_down req).2 = StoreUnavailable "ECONNREFUSED" ∧
  statusCode (StoreUnavailable "ECONNREFUSED") = 500.
Proof.
  intros req. split; [done|]. split.
  { unfold ActiveRefreshSet, smembers, world_member_down. simpl.
    rewrite lookup_singleton_eq. simpl. by apply elem_of_singleton. }
  split; [by eexists; vm_compute|].
  by vm_compute.
Qed.

(** C7.  A failed login tells a known name from an unknown one when the
    body has no password (or one that is not a string): for alice, whom
    the user collection knows, bcryptjs rejects the call and the answer is
    500 "Error logging in"; for a name nobody has, the comparison is never
    made and the answer is 401 "Invalid credentials". *)
Theorem login_without_password_tells_known_names :
  let known := loginReqNoPassword "alice" in
  let unknown := loginReqNoPassword "mallory" in
  findOne (mongo world0) (body_username (req_body known)) = Reply (Some alice) ∧
  findOne (mongo world0) (body_username (req_body unknown)) = Reply None ∧
  body_password (req_body known) = body_password (req_body unknown) ∧
  (login env0 world0 known).2 =
    mkRes 500 []
      (Some (MessageError "Error logging in"
               "Illegal arguments: undefined, string")) ∧
  (login env0 world0 unknown).2 = invalidCredentials ∧
  statusCode (login env0 world0 known).2 = 500 ∧
  statusCode (login env0 world0 unknown).2 = 401 ∧
  (login env0 world0 known).2 ≠ (login env0 world0 unknown).2.
Proof.
  intros known unknown.
  rewrite (login_not_a_string env0 world0 known "undefined" eq_refl).
  rewrite (login_not_a_string env0 world0 unknown "undefined" eq_refl).
  assert (findOne (mongo world0) (body_username (req_body known))
          = Reply (Some alice)) as -> by reflexivity.
  assert (findOne (mongo world0) (body_username (req_body unknown))
          = Reply None) as -> by reflexivity.
  cbn [snd]. by repeat split.
Qed.

(** C4.  With Redis unreachable, a login with alice's name and password
    is accepted and answered 200 with a refresh token in the cookie, and
    the ActiveRefreshSet is empty afterwards: the token that was returned
    is not a member. *)
Theorem login_returns_unregistered_token_when_store_down :
  let req := loginReq "alice" "correct horse" in
  let after := login env0 world_down req in
  accepted world_down req alice ∧
  statusCode (after.2) = 200 ∧
  cookieSet "refreshToken" (after.2) = Some aliceRefreshToken ∧
  ActiveRefreshSet (after.1) = ∅ ∧
  (aliceRefreshToken ∉ ActiveRefreshSet (after.1)).
Proof.
  intros req after. split; [apply alice_accepted|].
  assert (ActiveRefreshSet (after.1) = ∅) as Hempty by by vm_compute.
  split; [by vm_compute|]. split; [by vm_compute|]. split; [done|].
  rewrite Hempty. apply not_elem_of_empty.
Qed.

(** C9 as stated fails when the store already holds the very token that
    is minted (alice logged in earlier in the same second, while Redis was
    reachable): the add fails, the login is answered 200 with that token,
    the token is a member of the ActiveRefreshSet, and once Redis is back a
    refresh with it is not answered TokenRevoked but succeeds. *)
Lemma login_add_fails_token_already_member :
  let req := loginReq "alice" "correct horse" in
  let after := login env0 world_member_down req in
  accepted world_member_down req alice ∧
  fault (redis world_member_down) = Some "ECONNREFUSED" ∧
  sadd (redis world_member_down) "refreshTokens" aliceRefreshToken
    = (Err "ECONNREFUSED", redis world_member_down) ∧
  cookieSet "refreshToken" (after.2) = Some aliceRefreshToken ∧
  ¬ (aliceRefreshToken ∉ ActiveRefreshSet (after.1)) ∧
  later (after.1) world_member ∧
  (refreshToken env0 world_member (cookieReq "refreshToken" aliceRefreshToken)).2
    ≠ TokenRevoked ∧
  (refreshToken env0 world_member (cookieReq "refreshToken" aliceRefreshToken)).2
    = Refreshed (accessCookieOptions env0)
        (Reference.sign "alice" "access-secret" 900 1000).
Proof.
  intros req after. split; [apply alice_accepted|].
  split; [done|]. split; [done|]. split; [by vm_compute|].
  assert (after.1 = world_member_down) as ->
    by exact (login_store_down env0 world_member_down req alice "ECONNREFUSED"
                (alice_accepted _ _) eq_refl).
  split.
  { intros Hout. apply Hout.
    unfold ActiveRefreshSet, smembers, world_member_down. cbn [redis sets].
    rewrite lookup_singleton_eq. by apply elem_of_singleton. }
  split; [reflexivity|].
  assert ((refreshToken env0 world_member
             (cookieReq "refreshToken" aliceRefreshToken)).2
          = Refreshed (accessCookieOptions env0)
              (Reference.sign "alice" "access-secret" 900 1000)) as ->
    by by vm_compute.
  split; [discriminate | done].
Qed.

(** ** The theorems at concrete inputs *)

(** Logging out twice with alice's refresh token, from a store that holds
    it. *)
Lemma logout_twice_same_effect_witness :
  let req := cookieReq "refreshToken" aliceRefreshToken in
  reachable world_member ∧
  (let t := toArg (cookies req !! "refreshToken") in
   let first := logout world_member req in
   let second := logout (first.1) req in
   first.2 = LoggedOut ∧ second.2 = LoggedOut ∧
   statusCode LoggedOut = 200 ∧
   cookieCleared "accessToken" LoggedOut = true ∧
   cookieCleared "refreshToken" LoggedOut = true ∧
   (t ∉ ActiveRefreshSet (first.1)) ∧
   ActiveRefreshSet (second.1) = ActiveRefreshSet (first.1) ∧
   (t ∉ ActiveRefreshSet world_member →
      ActiveRefreshSet (first.1) = ActiveRefreshSet world_member)).
Proof.
  intros req.
  assert (reachable world_member) as Hup by reflexivity.
  split; [exact Hup|].
  exact (logout_twice_same_effect world_member req Hup).
Defined.

(** The access token of alice, issued at 1000 and verified at 1500. *)
Lemma access_token_round_trip_witness :
  JwtContract Reference.libs ∧
  JWT_ACCESS_TOKEN_SECRET env0 ≠ JWT_REFRESH_TOKEN_SECRET env0 ∧
  1500 < clock world0 + JWT_ACCESS_TOKEN_EXPIRATION env0 ∧
  (let t := generateAccessToken env0 world0 "alice" in
   let payload := mkPayload "alice" 1000 1900 in
   jwt_verify t (JWT_ACCESS_TOKEN_SECRET env0) 1500 = Some payload ∧
   username payload = "alice" ∧
   (∀ r m req, cookies req !! "accessToken" = Some t →
      authenticateJWT env0 (mkWorld r m 1500) req =
        Next (mkReq (cookies req) (req_body req) (Some payload))) ∧
   (∀ now', jwt_verify t (JWT_REFRESH_TOKEN_SECRET env0) now' = None) ∧
   (∀ w' req, cookies req !! "refreshToken" = Some t → memberCheck w' t →
      refreshToken env0 w' req = (w', TokenInvalid))).
Proof.
  assert (JWT_ACCESS_TOKEN_SECRET env0 ≠ JWT_REFRESH_TOKEN_SECRET env0) as Hne
    by discriminate.
  assert (1500 < clock world0 + JWT_ACCESS_TOKEN_EXPIRATION env0) as Hlt
    by reflexivity.
  split; [exact reference_contract|]. split; [exact Hne|]. split; [exact Hlt|].
  exact (access_token_round_trip env0 world0 "alice" 1500
           reference_contract Hne Hlt).
Defined.

(** An accepted login of alice while Redis, holding nothing, cannot be
    reached. *)
Lemma login_succeeds_though_add_fails_witness :
  let req := loginReq "alice" "correct horse" in
  JwtContract Reference.libs ∧
  accepted world_down req alice ∧
  fault (redis world_down) = Some "ECONNREFUSED" ∧
  (mintedRefreshToken env0 world_down req ∉ ActiveRefreshSet world_down) ∧
  (let t := mintedRefreshToken env0 world_down req in
   let after := login env0 world_down req in
   after.2 = LoggedIn (accessCookieOptions env0) (refreshCookieOptions env0)
               alice
               (generateAccessToken env0 world_down (body_username (req_body req)))
               t ∧
   (∀ r, (login env0 (set_redis world_down r) req).2 = after.2) ∧
   ActiveRefreshSet (after.1) = ActiveRefreshSet world_down ∧
   (t ∉ ActiveRefreshSet world_down →
      (t ∉ ActiveRefreshSet (after.1)) ∧
      ∀ w' req', later (after.1) w' → cookies req' !! "refreshToken" = Some t →
        refreshToken env0 w' req' = (w', TokenRevoked))).
Proof.
  intros req.
  assert (fault (redis world_down) = Some "ECONNREFUSED") as Hf by reflexivity.
  split; [exact reference_contract|].
  split; [exact (alice_accepted _ _)|]. split; [exact Hf|].
  split; [apply not_elem_of_empty|].
  exact (login_succeeds_though_add_fails env0 world_down req alice "ECONNREFUSED"
           reference_contract (alice_accepted _ _) Hf).
Defined.

(** ** The session and registration theorems at concrete inputs *)

Lemma pad_length (n : nat) (s : string) : String.length (Padded.pad n s) = n.
Proof.
  revert s. induction n as [|n IH]; intros s; [done|].
  destruct s as [|c s]; simpl; by rewrite IH.
Qed.

Lemma length_append (s1 s2 : string) :
  String.length (s1 +:+ s2) = (String.length s1 + String.length s2)%nat.
Proof.
  induction s1 as [|c s1 IH]; [done|].
  change (String c s1 +:+ s2) with (String c (s1 +:+ s2)).
  simpl. by rewrite IH.
Qed.

Lemma padded_contract : HashContract Padded.libs Padded.hasher.
Proof.
  split.
  - intros p r s. by apply bool_decide_eq_true_2.
  - intros p r s. change (bcrypt_hash p r s) with ("$2a$10$" +:+ Padded.pad 53 p).
    by rewrite length_append, pad_length.
Qed.

Lemma alice_member : memberCheck world_member aliceRefreshToken.
Proof.
  split; [done|]. unfold ActiveRefreshSet, smembers, world_member. simpl.
  rewrite lookup_singleton_eq. simpl. by apply elem_of_singleton.
Qed.

Lemma alice_supplied : supplied (Some aliceRefreshToken).
Proof. by apply truthy_supplied. Qed.

Lemma wellFormed_alice : wellFormed [alice].
Proof.
  split; [|split].
  - apply NoDup_singleton.
  - apply NoDup_singleton.
  - apply Forall_singleton. unfold validDocument.
    split; [simpl; lia|]. split; [by vm_compute|]. split; [simpl; lia|].
    split; [done|]. intros role [= <-]. apply list_elem_of_here.
Qed.

(** An accepted login of alice into an empty, reachable store. *)
Lemma login_adds_exactly_the_minted_token_witness :
  let env := env0 in
  let w := world0 in
  let req := loginReq "alice" "correct horse" in
  accepted w req alice ∧ reachable w ∧
  (let t := mintedRefreshToken env w req in
   let after := login env w req in
   ActiveRefreshSet (after.1) = {[t]} ∪ ActiveRefreshSet w ∧
   reachable (after.1) ∧ mongo (after.1) = mongo w ∧ clock (after.1) = clock w ∧
   cookieSet "refreshToken" (after.2) = Some t ∧
   cookieSet "accessToken" (after.2) =
     Some (generateAccessToken env w (body_username (req_body req))) ∧
   statusCode (after.2) = 200).
Proof.
  intros env w req.
  assert (reachable w) as Hup by reflexivity.
  split; [exact (alice_accepted _ _)|]. split; [exact Hup|].
  exact (login_adds_exactly_the_minted_token env w req alice
           (alice_accepted _ _) Hup).
Defined.

(** Alice logs in at 1000 and refreshes in the same second. *)
Lemma login_then_refresh_succeeds_witness :
  let env := env0 in
  let w := world0 in
  let w' := world_member in
  let req := loginReq "alice" "correct horse" in
  let req' := cookieReq "refreshToken" aliceRefreshToken in
  JwtContract Reference.libs ∧ accepted w req alice ∧ reachable w ∧
  later ((login env w req).1) w' ∧ reachable w' ∧
  clock w' < clock w + JWT_REFRESH_TOKEN_EXPIRATION env ∧
  cookies req' !! "refreshToken" = Some (mintedRefreshToken env w req) ∧
  refreshToken env w' req' =
    (w', Refreshed (accessCookieOptions env)
           (generateAccessToken env w' (body_username (req_body req)))).
Proof.
  intros env w w' req req'.
  assert (reachable w) as Hup by reflexivity.
  assert (later ((login env w req).1) w') as Hlater.
  { unfold later. rewrite (login_accepted env w req alice (alice_accepted _ _)).
    unfold sadd, set_redis, smembers, w, w', world0, world_member.
    cbn [fst snd redis fault sets]. rewrite lookup_empty. cbn [default].
    by rewrite (right_id_L ∅ (∪)), insert_empty. }
  assert (reachable w') as Hup' by reflexivity.
  assert (clock w' < clock w + JWT_REFRESH_TOKEN_EXPIRATION env) as Hexp
    by reflexivity.
  assert (cookies req' !! "refreshToken" = Some (mintedRefreshToken env w req))
    as Hc by exact (lookup_singleton_eq _ _).
  split; [exact reference_contract|]. split; [exact (alice_accepted _ _)|].
  do 5 (split; [assumption|]).
  exact (login_then_refresh_succeeds env w w' req req' alice reference_contract
           (alice_accepted _ _) Hup Hlater Hup' Hexp Hc).
Defined.

(** Alice logs out and then presents the same refresh token. *)
Lemma logout_revokes_refresh_token_witness :
  let env := env0 in
  let w := world_member in
  let req := cookieReq "refreshToken" aliceRefreshToken in
  let w' := (logout w req).1 in
  reachable w ∧ supplied (cookies req !! "refreshToken") ∧
  later ((logout w req).1) w' ∧
  cookies req !! "refreshToken" = cookies req !! "refreshToken" ∧
  refreshToken env w' req = (w', TokenRevoked).
Proof.
  intros env w req w'.
  assert (reachable w) as Hup by reflexivity.
  assert (supplied (cookies req !! "refreshToken")) as Hs
    by (apply truthy_supplied; by vm_compute).
  assert (later ((logout w req).1) w') as Hlater by reflexivity.
  do 3 (split; [assumption|]). split; [reflexivity|].
  exact (logout_revokes_refresh_token env w w' req req Hup Hs Hlater eq_refl).
Defined.

(** A logout with the cookie [j:["1","2"]] from a store that holds the
    members 1, 2 and 3. *)
Lemma logout_removes_only_presented_members_witness :
  let w :=
    mkWorld (mkRedis None {[ "refreshTokens" := {[ "1"; "2"; "3" ]} ]})
      mongo0 1000 in
  let token := Some (CookieArray ["1"; "2"]) in
  reachable w ∧
  (let members := sremArgs token in
   let after := (logoutValue w token).1 in
   (members ≠ [] →
      (logoutValue w token).2 = LoggedOut ∧
      (∀ t, t ∈ ActiveRefreshSet after ↔ t ∈ ActiveRefreshSet w ∧ t ∉ members) ∧
      (∀ key, key ≠ "refreshTokens" →
         smembers (redis after) key = smembers (redis w) key)) ∧
   (members = [] →
      logoutValue w token =
        (w, mkRes 500 []
              (Some (MessageError "Error logging out"
                       "ERR wrong number of arguments for 'srem' command")))) ∧
   mongo after = mongo w ∧ clock after = clock w ∧
   (∀ req, logout w req =
             logoutValue w (CookieText <$> cookies req !! "refreshToken"))) ∧
  sremArgs token ≠ [] ∧
  ActiveRefreshSet (logoutValue w token).1 = {[ "3" ]}.
Proof.
  intros w token.
  assert (reachable w) as Hup by reflexivity.
  split; [exact Hup|].
  split; [exact (logout_removes_only_presented_members w token Hup)|].
  split; [done|].
  destruct (logout_removes_only_presented_members w token Hup)
    as (Hremoved & _).
  destruct Hremoved as (_ & Hset & _); [done|].
  apply set_eq. intros t. rewrite Hset.
  unfold ActiveRefreshSet, smembers, w. cbn [redis sets].
  rewrite lookup_singleton_eq. cbn [default sremArgs token]. unfold id.
  rewrite !elem_of_union, !elem_of_singleton, !elem_of_cons, elem_of_nil.
  split.
  - intros [[[-> | ->] | ->] Hout]; [exfalso; apply Hout; by left
                                   | exfalso; apply Hout; right; by left
                                   | done].
  - intros ->. split; [by right|]. by intros [? | [? | []]].
Defined.

(** A logout while Redis refuses connections. *)
Lemma logout_store_error_clears_no_cookie_witness :
  let w := world_member_down in
  let req := cookieReq "refreshToken" aliceRefreshToken in
  fault (redis w) = Some "ECONNREFUSED" ∧
  (logout w req).1 = w ∧
  statusCode (logout w req).2 = 500 ∧
  headers (logout w req).2 = [] ∧
  cookieCleared "accessToken" (logout w req).2 = false ∧
  cookieCleared "refreshToken" (logout w req).2 = false ∧
  body (logout w req).2 = Some (MessageError "Error logging out" "ECONNREFUSED").
Proof.
  intros w req.
  assert (fault (redis w) = Some "ECONNREFUSED") as Hf by reflexivity.
  split; [exact Hf|].
  exact (logout_store_error_clears_no_cookie w req "ECONNREFUSED" Hf).
Defined.

(** Alice logs in at 1000, logs out, and uses the access token at 1500. *)
Lemma access_token_survives_logout_witness :
  let env := env0 in
  let w := world0 in
  let req := loginReq "alice" "correct horse" in
  let out := cookieReq "refreshToken" aliceRefreshToken in
  let req' := cookieReq "accessToken" (generateAccessToken env w "alice") in
  JwtContract Reference.libs ∧ accepted w req alice ∧
  1500 < clock w + JWT_ACCESS_TOKEN_EXPIRATION env ∧
  cookies req' !! "accessToken" = cookieSet "accessToken" (login env w req).2 ∧
  (let w2 := (logout (login env w req).1 out).1 in
   let payload :=
     mkPayload (body_username (req_body req)) (clock w)
       (clock w + JWT_ACCESS_TOKEN_EXPIRATION env) in
   getProtected env (mkWorld (redis w2) (mongo w2) 1500) req' =
     mkRes 200 [] (Some (MessageReqUser "This is a protected route" (Some payload))) ∧
   ∀ r m, getProtected env (mkWorld r m 1500) req' =
     mkRes 200 [] (Some (MessageReqUser "This is a protected route" (Some payload)))).
Proof.
  intros env w req out req'.
  assert (1500 < clock w + JWT_ACCESS_TOKEN_EXPIRATION env) as Hexp by reflexivity.
  assert (cookies req' !! "accessToken"
          = cookieSet "accessToken" (login env w req).2) as Hc by by vm_compute.
  split; [exact reference_contract|]. split; [exact (alice_accepted _ _)|].
  do 2 (split; [assumption|]).
  exact (access_token_survives_logout env w req out req' alice 1500
           reference_contract (alice_accepted _ _) Hexp Hc).
Defined.

(** Alice's refresh token in the [accessToken] cookie. *)
Lemma refresh_token_rejected_as_access_token_witness :
  let env := env0 in
  let w := world0 in
  let req := loginReq "alice" "correct horse" in
  let req' := cookieReq "accessToken" aliceRefreshToken in
  JwtContract Reference.libs ∧
  JWT_ACCESS_TOKEN_SECRET env ≠ JWT_REFRESH_TOKEN_SECRET env ∧
  cookies req' !! "accessToken" = Some (mintedRefreshToken env w req) ∧
  authenticateJWT env world_member req' = Responded Forbidden ∧
  getProtected env world_member req' = Forbidden.
Proof.
  intros env w req req'.
  assert (JWT_ACCESS_TOKEN_SECRET env ≠ JWT_REFRESH_TOKEN_SECRET env) as Hne
    by discriminate.
  assert (cookies req' !! "accessToken" = Some (mintedRefreshToken env w req))
    as Hc by by vm_compute.
  split; [exact reference_contract|]. do 2 (split; [assumption|]).
  exact (refresh_token_rejected_as_access_token env w world_member req req'
           reference_contract Hne Hc).
Defined.

(** Alice's refresh token, minted at 1000 for 30 days. *)
Lemma refresh_token_works_until_expiry_witness :
  let env := env0 in
  let w := world0 in
  let w' := world_member in
  let req := loginReq "alice" "correct horse" in
  let req' := cookieReq "refreshToken" aliceRefreshToken in
  JwtContract Reference.libs ∧
  (let t := mintedRefreshToken env w req in
   let expiry := clock w + JWT_REFRESH_TOKEN_EXPIRATION env in
   memberCheck w' t ∧ cookies req' !! "refreshToken" = Some t ∧
   (clock w' < expiry →
      (refreshToken env w' req').2 =
        Refreshed (accessCookieOptions env)
          (generateAccessToken env w' (body_username (req_body req)))) ∧
   ((expiry ≤ clock w')%Z → (refreshToken env w' req').2 = TokenInvalid) ∧
   (t ∈ ActiveRefreshSet (refreshToken env w' req').1)).
Proof.
  intros env w w' req req'.
  assert (cookies req' !! "refreshToken" = Some (mintedRefreshToken env w req))
    as Hc by by vm_compute.
  split; [exact reference_contract|].
  split; [exact alice_member|]. split; [exact Hc|].
  exact (refresh_token_works_until_expiry env w w' req req'
           reference_contract alice_member Hc).
Defined.

(** The refresh cookie of alice's login. *)
Lemma session_cookies_attributes_witness :
  let env := env0 in
  let w := world0 in
  let req := loginReq "alice" "correct horse" in
  let n := "refreshToken" in
  let v := aliceRefreshToken in
  let o := refreshCookieOptions env in
  (SetCookie n v o ∈ headers (login env w req).2 ∨
   SetCookie n v o ∈ headers (refreshToken env w req).2) ∧
  httpOnly o = true ∧ sameSite o = "strict" ∧
  secure o = bool_decide (NODE_ENV env = "production") ∧
  ((n = "accessToken" ∧ maxAge o = 900000) ∨
   (n = "refreshToken" ∧ maxAge o = 2592000000 ∧
    SetCookie n v o ∈ headers (login env w req).2)).
Proof.
  intros env w req n v o.
  assert (SetCookie n v o ∈ headers (login env w req).2 ∨
          SetCookie n v o ∈ headers (refreshToken env w req).2) as Hin.
  { left. rewrite (login_accepted env w req alice (alice_accepted _ _)).
    apply list_elem_of_further, list_elem_of_here. }
  split; [exact Hin|].
  exact (session_cookies_attributes env w req n v o Hin).
Defined.

(** A login for alice without a password. *)
Lemma unaccepted_login_has_no_effect_witness :
  let env := env0 in
  let w := world0 in
  let req := loginReqNoPassword "alice" in
  (∀ user, ¬ accepted w req user) ∧
  (login env w req).1 = w ∧ headers (login env w req).2 = [] ∧
  ((login env w req).2 = invalidCredentials ∧
   mongo_fault (mongo w) = None ∧
   (findOne (mongo w) (body_username (req_body req)) = Reply None ∨
    ∃ user password,
      findOne (mongo w) (body_username (req_body req)) = Reply (Some user) ∧
      body_password (req_body req) = JsString password ∧
      bcrypt_compare password (user_password user) = false) ∨
   (∃ e, mongo_fault (mongo w) = Some e ∧
         (login env w req).2 =
           mkRes 500 [] (Some (MessageError "Error logging in" e))) ∨
   (∃ user typeOf,
      findOne (mongo w) (body_username (req_body req)) = Reply (Some user) ∧
      body_password (req_body req) = JsOther typeOf ∧
      (login env w req).2 =
        mkRes 500 []
          (Some (MessageError "Error logging in"
                   ("Illegal arguments: " +:+ typeOf +:+ ", string"))))).
Proof.
  intros env w req.
  assert (∀ user, ¬ accepted w req user) as Hno.
  { intros user [_ (password & Hp & _)]. discriminate Hp. }
  split; [exact Hno|].
  exact (unaccepted_login_has_no_effect env w req Hno).
Defined.

(** Two sessions of alice, opened at 1000 and at 2000; the first one is
    logged out. *)
Lemma logout_leaves_other_session_witness :
  let env := env0 in
  let w1 := world0 in
  let w2 := mkWorld (mkRedis None ∅) mongo0 2000 in
  let req := loginReq "alice" "correct horse" in
  let w :=
    mkWorld
      (mkRedis None
         {[ "refreshTokens" :=
              {[ mintedRefreshToken env w1 req; mintedRefreshToken env w2 req ]} ]})
      mongo0 3000 in
  let out := cookieReq "refreshToken" aliceRefreshToken in
  JwtContract Reference.libs ∧ clock w1 ≠ clock w2 ∧ reachable w ∧
  cookies out !! "refreshToken" = Some (mintedRefreshToken env w1 req) ∧
  mintedRefreshToken env w2 req ∈ ActiveRefreshSet w ∧
  mintedRefreshToken env w1 req ≠ mintedRefreshToken env w2 req ∧
  mintedRefreshToken env w2 req ∈ ActiveRefreshSet (logout w out).1 ∧
  (mintedRefreshToken env w1 req ∉ ActiveRefreshSet (logout w out).1).
Proof.
  intros env w1 w2 req w out.
  assert (clock w1 ≠ clock w2) as Hclock by discriminate.
  assert (reachable w) as Hup by reflexivity.
  assert (cookies out !! "refreshToken" = Some (mintedRefreshToken env w1 req))
    as Hc by by vm_compute.
  assert (mintedRefreshToken env w2 req ∈ ActiveRefreshSet w) as Hin.
  { unfold ActiveRefreshSet, smembers, w. simpl.
    rewrite lookup_singleton_eq. simpl.
    apply elem_of_union_r. by apply elem_of_singleton. }
  split; [exact reference_contract|]. do 4 (split; [assumption|]).
  exact (logout_leaves_other_session env w1 w2 w req out
           reference_contract Hclock Hup Hc Hin).
Defined.

(** Bob registers with a password of two characters and logs in. *)
Lemma register_then_login_accepted_witness :
  HashContract Padded.libs Padded.hasher ∧
  statusCode (register (H := Padded.hasher) world0 bobBody "salt").2 = 201 ∧
  ∃ u p user,
    reg_username bobBody = Some u ∧ reg_password bobBody = Some p ∧
    body (register (H := Padded.hasher) world0 bobBody "salt").2 =
      Some (MessageUser "User registered successfully" user) ∧
    user_username user = u ∧
    user_password user = Padded.hash p 10 "salt" ∧
    accepted (L := Padded.libs)
      (register (H := Padded.hasher) world0 bobBody "salt").1
      (mkReq ∅ (mkBody u (JsString p)) None) user ∧
    statusCode
      (login (L := Padded.libs) env0
         (register (H := Padded.hasher) world0 bobBody "salt").1
         (mkReq ∅ (mkBody u (JsString p)) None)).2 = 200 ∧
    body
      (login (L := Padded.libs) env0
         (register (H := Padded.hasher) world0 bobBody "salt").1
         (mkReq ∅ (mkBody u (JsString p)) None)).2
      = Some (MessageUser "Logged in successfully" user).
Proof.
  assert (statusCode (register (H := Padded.hasher) world0 bobBody "salt").2
          = 201) as H201 by by vm_compute.
  split; [exact padded_contract|]. split; [exact H201|].
  exact (register_then_login_accepted (L := Padded.libs) (H := Padded.hasher)
           env0 world0 bobBody "salt" ∅ padded_contract H201).
Defined.

(** Bob's registration with two passwords, and with none at all. *)
Lemma register_ignores_password_length_witness :
  let w := world0 in
  let u := Some "bob" in
  let e := Some "bob@example.com" in
  let n := Some "Bob" in
  HashContract Padded.libs Padded.hasher ∧
  statusCode (register (H := Padded.hasher) w
                (mkRegister u (Some "pw") e None None n None Missing) "s1").2 =
  statusCode (register (H := Padded.hasher) w
                (mkRegister u (Some "a long pass phrase") e None None n None
                   Missing)
                "s2").2 ∧
  statusCode (register (H := Padded.hasher) w
                (mkRegister u (Some "pw") e None None n None Missing) "s1").2 =
  statusCode (register (H := Padded.hasher) w
                (mkRegister u (Some EmptyString) e None None n None Missing) "s1").2.
Proof.
  intros w u e n.
  split; [exact padded_contract|].
  exact (register_ignores_password_length (L := Padded.libs) (H := Padded.hasher)
           w u e None n None Missing None "pw" "a long pass phrase" "s1" "s2"
           padded_contract).
Defined.

(** Bob registers into the collection that holds alice. *)
Lemma register_keeps_collection_wellformed_witness :
  wellFormed (users (mongo world0)) ∧
  wellFormed
    (users (mongo (register (H := Padded.hasher) world0 bobBody "salt").1)).
Proof.
  split; [exact wellFormed_alice|].
  exact (register_keeps_collection_wellformed (H := Padded.hasher)
           world0 bobBody "salt" wellFormed_alice).
Defined.

(** A bulk registration of bob and of an entry without e-mail address. *)
Lemma registerMultipleUsers_keeps_collection_wellformed_witness :
  let data :=
    [mkMock EmptyString (Some "bob") (Some "pw") (Some "bob@example.com")
       (Some "male") (Some "Bob") None Missing;
     mkMock EmptyString (Some "carol") (Some "pw") None
       (Some "female") (Some "Carol") None Null] in
  wellFormed (users (mongo world0)) ∧
  wellFormed
    (users (mongo (registerMultipleUsers (H := Padded.hasher) data
                     (λ _, "salt") (λ _ _, None) world0).1)).
Proof.
  intros data.
  split; [exact wellFormed_alice|].
  exact (registerMultipleUsers_keeps_collection_wellformed (H := Padded.hasher)
           (λ _, "salt") (λ _ _, None) data world0 wellFormed_alice).
Defined.

(** A bulk registration while the database is down. *)
Lemma registerMultipleUsers_database_down_witness :
  let data :=
    [mkMock EmptyString (Some "bob") (Some "pw") (Some "bob@example.com")
       (Some "male") (Some "Bob") None Missing] in
  let w := mkWorld (mkRedis None ∅) (mkMongo (Some "ECONNREFUSED") [alice]) 1000 in
  mongo_fault (mongo w) = Some "ECONNREFUSED" ∧
  registerMultipleUsers (H := Padded.hasher) data (λ _, "salt") (λ _ _, None) w =
    (w, (400, BulkMessage "No users were registered due to errors")).
Proof.
  intros data w.
  assert (mongo_fault (mongo w) = Some "ECONNREFUSED") as Hf by reflexivity.
  split; [exact Hf|].
  exact (registerMultipleUsers_database_down (H := Padded.hasher)
           (λ _, "salt") (λ _ _, None) data w "ECONNREFUSED" Hf).
Defined.

(** Alice refreshes at 1000 and uses the new access token at 1500. *)
Lemma refreshed_access_token_is_accepted_witness :
  let env := env0 in
  let w := world_member in
  let req := cookieReq "refreshToken" aliceRefreshToken in
  let a := generateAccessToken env w "alice" in
  let req' := cookieReq "accessToken" a in
  JwtContract Reference.libs ∧
  (refreshToken env w req).2 = Refreshed (accessCookieOptions env) a ∧
  1500 < clock w + JWT_ACCESS_TOKEN_EXPIRATION env ∧
  cookies req' !! "accessToken" = Some a ∧
  ∃ user,
    jwt_verify (toArg (cookies req !! "refreshToken"))
      (JWT_REFRESH_TOKEN_SECRET env) (clock w) = Some user ∧
    ∀ r m,
      getProtected env (mkWorld r m 1500) req' =
        mkRes 200 []
          (Some (MessageReqUser "This is a protected route"
                   (Some (mkPayload (username user) (clock w)
                            (clock w + JWT_ACCESS_TOKEN_EXPIRATION env))))).
Proof.
  intros env w req a req'.
  assert ((refreshToken env w req).2 = Refreshed (accessCookieOptions env) a)
    as Hres by by vm_compute.
  assert (1500 < clock w + JWT_ACCESS_TOKEN_EXPIRATION env) as Hexp by reflexivity.
  assert (cookies req' !! "accessToken" = Some a) as Hc by by vm_compute.
  split; [exact reference_contract|]. do 3 (split; [assumption|]).
  exact (refreshed_access_token_is_accepted env w req req' a 1500
           reference_contract Hres Hexp Hc).
Defined.
